(** * Salon booking backend: resolvers over the JSON store, and the
      service selection of the booking screen

    A shallow embedding of [backend/resolvers.ts] (queries and mutations
    over [data/sampleData.json]) and of [toggleService] from
    [app/booking.tsx], with the properties of the specification that
    concern them.

    Conventions of the embedding.
    - A resolver is a state-passing computation over the [World]: the
      JSON module imported once when the server starts ([imported]) and
      the JSON file on disk ([file]), which [readData] parses afresh and
      [writeData] overwrites.  The file is represented by the document it
      parses to.
    - A resolver either returns a value or throws ([Outcome]).
    - [Date.now()] is an input of the resolver that calls it: the number of
      milliseconds the clock shows during that call.
    - Field types follow the GraphQL schema ([backend/schema.ts]): [ID!]
      and [String!] are strings, [Float!] is a binary64 float, [Boolean!]
      a boolean.  String length counts the characters of a Rocq string,
      which is the JavaScript [length] on ASCII text.
    - [delay] and [console.log] have no effect on the store and are kept
      only as no-ops. *)

From Stdlib Require Import List String Ascii Bool Arith NArith Lia.
From Stdlib Require Import DecimalString DecimalN.
From Stdlib Require Import PrimFloat.
Import ListNotations.

Local Open Scope string_scope.
Local Open Scope list_scope.

(** ** The data model (types of [backend/schema.ts]) *)

Module Salon.
Record t := mk {
  id : string;
  name : string;
  address : string;
  rating : float;
  specialties : list string
}.
End Salon.

Module Service.
Record t := mk {
  id : string;
  name : string;
  price : float;
  salonId : string
}.
End Service.

Module Staff.
Record t := mk {
  id : string;
  name : string;
  specialization : string;
  photo : string;
  salonId : string
}.
End Staff.

Module Schedule.
Record t := mk {
  id : string;
  time : string;
  isAvailable : bool
}.
End Schedule.

(** A stored user: the schema's [User] plus the clear-text password the
    resolvers keep in the file. *)
Module StoredUser.
Record t := mk {
  id : string;
  name : string;
  phone : string;
  email : string;
  password : string
}.
End StoredUser.

(** The schema's [User], as sent to the client: there is no password
    field. *)
Module User.
Record t := mk {
  id : string;
  name : string;
  phone : string;
  email : string
}.
End User.

Module Booking.
Record t := mk {
  id : string;
  userId : string;
  salon : Salon.t;
  services : list Service.t;
  staff : Staff.t;
  time : string
}.
End Booking.

Module AuthResponse.
Record t := mk {
  success : bool;
  message : string;
  user : option User.t
}.
End AuthResponse.

Module BookingInput.
Record t := mk {
  userId : string;
  salonId : string;
  serviceIds : list string;
  staffId : string;
  time : string
}.
End BookingInput.

Module RegisterInput.
Record t := mk {
  name : string;
  phone : string;
  email : string;
  password : string
}.
End RegisterInput.

Module LoginInput.
Record t := mk {
  email : string;
  password : string
}.
End LoginInput.

(** The JSON document of [data/sampleData.json].  The [bookings] key may be
    absent: the resolvers test for it ([data.bookings || []],
    [if (!data.bookings)]). *)
Record Document := mkDocument {
  salons : list Salon.t;
  services : list Service.t;
  staff : list Staff.t;
  schedules : list Schedule.t;
  users : list StoredUser.t;
  bookings : option (list Booking.t)
}.

(** ** JavaScript helpers used by the resolvers *)

(** [xs.includes(x)] on an array of strings. *)
Definition includes (xs : list string) (x : string) : bool :=
  existsb (String.eqb x) xs.

(** [s.includes(sub)] on strings: [sub] occurs somewhere in [s]. *)
Definition str_includes (s sub : string) : bool :=
  match index 0 sub s with
  | Some _ => true
  | None => false
  end.

(** [!s] for a string: only the empty string is falsy. *)
Definition blank (s : string) : bool := (s =? "")%string.

(** [`${n}`] for a non-negative integer below 10^21: its decimal digits. *)
Definition decimal (n : N) : string :=
  NilEmpty.string_of_uint (N.to_uint n).

(** [xs || []]. *)
Definition or_empty {A} (xs : option (list A)) : list A :=
  match xs with
  | Some l => l
  | None => []
  end.

(** ** Resolvers as computations over the store *)

Record World := mkWorld {
  imported : Document;  (* what [import ... from '../data/sampleData.json'] read *)
  file : Document       (* the content of the same file on disk *)
}.

(** The server starts: the module import reads the file that is on disk. *)
Definition boot (d : Document) : World :=
  {| imported := d; file := d |}.

Inductive Outcome (A : Type) : Type :=
| Returned (a : A)
| Thrown (msg : string).
Arguments Returned {A} a.
Arguments Thrown {A} msg.

Definition Resolver (A : Type) : Type := World -> Outcome A * World.

Definition ret {A} (a : A) : Resolver A := fun w => (Returned a, w).

Definition throw {A} (msg : string) : Resolver A := fun w => (Thrown msg, w).

Definition bind {A B} (c : Resolver A) (k : A -> Resolver B) : Resolver B :=
  fun w =>
    match c w with
    | (Returned a, w') => k a w'
    | (Thrown msg, w') => (Thrown msg, w')
    end.

Notation "x <- c ;; k" := (bind c (fun x => k))
  (at level 61, c at next level, right associativity).
Notation "c ;;; k" := (bind c (fun _ => k))
  (at level 61, right associativity).

Definition delay (ms : nat) : Resolver unit := ret tt.

(** The module-level constant [sampleData]. *)
Definition sampleData : Resolver Document :=
  fun w => (Returned (imported w), w).

Definition readData : Resolver Document :=
  fun w => (Returned (file w), w).

Definition writeData (data : Document) : Resolver unit :=
  fun w => (Returned tt, {| imported := imported w; file := data |}).

(** [data.bookings.push(booking)] after [if (!data.bookings) data.bookings = []]. *)
Definition push_booking (data : Document) (booking : Booking.t) : Document :=
  {| salons := salons data;
     services := services data;
     staff := staff data;
     schedules := schedules data;
     users := users data;
     bookings := Some (or_empty (bookings data) ++ [booking]) |}.

(** [data.users.push(newUser)]. *)
Definition push_user (data : Document) (newUser : StoredUser.t) : Document :=
  {| salons := salons data;
     services := services data;
     staff := staff data;
     schedules := schedules data;
     users := users data ++ [newUser];
     bookings := bookings data |}.

(** *** Queries *)

Definition getSalons : Resolver (list Salon.t) :=
  delay 300 ;;;
  sampleData <- sampleData ;;
  ret (salons sampleData).

Definition getServices (salonId : string) : Resolver (list Service.t) :=
  delay 300 ;;;
  sampleData <- sampleData ;;
  ret (filter (fun service => Service.salonId service =? salonId)
         (services sampleData)).

Definition getStaff (salonId : string) : Resolver (list Staff.t) :=
  delay 300 ;;;
  sampleData <- sampleData ;;
  ret (filter (fun staff => Staff.salonId staff =? salonId)
         (staff sampleData)).

(** The source notes: "In a real app, this would be filtered by staffId". *)
Definition getStaffSchedules (staffId : string) : Resolver (list Schedule.t) :=
  delay 300 ;;;
  sampleData <- sampleData ;;
  ret (schedules sampleData).

Definition getBookings (userId : string) : Resolver (list Booking.t) :=
  delay 300 ;;;
  data <- readData ;;
  let userBookings :=
    filter (fun b => Booking.userId b =? userId) (or_empty (bookings data)) in
  ret userBookings.

(** *** Mutations *)

Definition invalid_booking : string := "Invalid booking data".

Definition createBooking (input : BookingInput.t) (now : N)
  : Resolver Booking.t :=
  delay 500 ;;;
  let userId := BookingInput.userId input in
  let salonId := BookingInput.salonId input in
  let serviceIds := BookingInput.serviceIds input in
  let staffId := BookingInput.staffId input in
  let time := BookingInput.time input in
  data <- readData ;;
  let salon := find (fun s => Salon.id s =? salonId) (salons data) in
  let services :=
    filter (fun s => includes serviceIds (Service.id s)) (services data) in
  let staff := find (fun s => Staff.id s =? staffId) (staff data) in
  match salon, staff with
  | Some salon, Some staff =>
      if (List.length services =? 0)%nat then throw invalid_booking
      else
        let booking :=
          {| Booking.id := "booking-" ++ decimal now;
             Booking.userId := userId;
             Booking.salon := salon;
             Booking.services := services;
             Booking.staff := staff;
             Booking.time := time |} in
        writeData (push_booking data booking) ;;;
        ret booking
  | _, _ => throw invalid_booking
  end.

Definition msg_exists : string :=
  "Email already registered. Please login instead.".
Definition msg_required : string := "All fields are required".
Definition msg_phone : string := "Phone number must be at least 10 digits".
Definition msg_email : string := "Invalid email address".
Definition msg_password : string := "Password must be at least 6 characters".
Definition msg_registered : string :=
  "Registration successful! Please login to continue.".
Definition msg_invalid_login : string := "Invalid email or password".
Definition msg_login : string := "Login successful!".

Definition failure (message : string) : AuthResponse.t :=
  {| AuthResponse.success := false;
     AuthResponse.message := message;
     AuthResponse.user := None |}.

Definition userWithoutPassword (u : StoredUser.t) : User.t :=
  {| User.id := StoredUser.id u;
     User.name := StoredUser.name u;
     User.phone := StoredUser.phone u;
     User.email := StoredUser.email u |}.

Definition register (input : RegisterInput.t) (now : N)
  : Resolver AuthResponse.t :=
  delay 300 ;;;
  let name := RegisterInput.name input in
  let phone := RegisterInput.phone input in
  let email := RegisterInput.email input in
  let password := RegisterInput.password input in
  data <- readData ;;
  let existingUser :=
    find (fun u => StoredUser.email u =? email) (users data) in
  match existingUser with
  | Some _ => ret (failure msg_exists)
  | None =>
      if blank name || blank phone || blank email || blank password
      then ret (failure msg_required)
      else if (String.length phone <? 10)%nat
      then ret (failure msg_phone)
      else if negb (str_includes email "@")
      then ret (failure msg_email)
      else if (String.length password <? 6)%nat
      then ret (failure msg_password)
      else
        let newUser :=
          {| StoredUser.id := "user-" ++ decimal now;
             StoredUser.name := name;
             StoredUser.phone := phone;
             StoredUser.email := email;
             StoredUser.password := password |} in
        writeData (push_user data newUser) ;;;
        ret {| AuthResponse.success := true;
               AuthResponse.message := msg_registered;
               AuthResponse.user := Some (userWithoutPassword newUser) |}
  end.

Definition login (input : LoginInput.t) : Resolver AuthResponse.t :=
  delay 300 ;;;
  let email := LoginInput.email input in
  let password := LoginInput.password input in
  data <- readData ;;
  let user :=
    find (fun u => (StoredUser.email u =? email)
                   && (StoredUser.password u =? password))
         (users data) in
  match user with
  | None => ret (failure msg_invalid_login)
  | Some user =>
      ret {| AuthResponse.success := true;
             AuthResponse.message := msg_login;
             AuthResponse.user := Some (userWithoutPassword user) |}
  end.

(** ** The booking screen: service selection ([app/booking.tsx]) *)

(** [toggleService service] computes the next [selectedServices] from the
    current one. *)
Definition toggleService (service : Service.t)
    (selectedServices : list Service.t) : list Service.t :=
  match find (fun s => Service.id s =? Service.id service) selectedServices with
  | Some _ =>
      filter (fun s => negb (Service.id s =? Service.id service))
        selectedServices
  | None => selectedServices ++ [service]
  end.

(** ** The server as a transition system *)

(** One GraphQL operation, with the clock value its resolver reads (if it
    reads the clock). *)
Inductive Request : Type :=
| GetSalons
| GetServices (salonId : string)
| GetStaff (salonId : string)
| GetStaffSchedules (staffId : string)
| GetBookings (userId : string)
| CreateBooking (input : BookingInput.t) (now : N)
| Register (input : RegisterInput.t) (now : N)
| Login (input : LoginInput.t).

(** The store after the server has answered one request. *)
Definition handle (w : World) (r : Request) : World :=
  match r with
  | GetSalons => snd (getSalons w)
  | GetServices salonId => snd (getServices salonId w)
  | GetStaff salonId => snd (getStaff salonId w)
  | GetStaffSchedules staffId => snd (getStaffSchedules staffId w)
  | GetBookings userId => snd (getBookings userId w)
  | CreateBooking input now => snd (createBooking input now w)
  | Register input now => snd (register input now w)
  | Login input => snd (login input w)
  end.

(** The store after a sequence of requests, answered one at a time. *)
Definition serve (w : World) (rs : list Request) : World :=
  fold_left handle rs w.

(** A store the server can be in: started on some document, then any
    requests. *)
Definition Reachable (w : World) : Prop :=
  exists d rs, w = serve (boot d) rs.

(** ** A small store for examples

    The documentation describes the seed file (salons, services, staff,
    five time slots, the demo account [demo@salon.com] / [demo123]); the
    values below follow that shape. *)

Definition salon1 : Salon.t :=
  {| Salon.id := "1"; Salon.name := "Glamour Studio";
     Salon.address := "123 Main St"; Salon.rating := 4.75%float;
     Salon.specialties := ["Hair"; "Nails"] |}.

Definition salon2 : Salon.t :=
  {| Salon.id := "2"; Salon.name := "Urban Cuts";
     Salon.address := "456 Oak Ave"; Salon.rating := 4.5%float;
     Salon.specialties := ["Barber"] |}.

Definition haircut : Service.t :=
  {| Service.id := "1"; Service.name := "Haircut";
     Service.price := 25%float; Service.salonId := "1" |}.

Definition colour : Service.t :=
  {| Service.id := "2"; Service.name := "Hair Colour";
     Service.price := 40%float; Service.salonId := "1" |}.

Definition shave : Service.t :=
  {| Service.id := "3"; Service.name := "Shave";
     Service.price := 15%float; Service.salonId := "2" |}.

Definition staff1 : Staff.t :=
  {| Staff.id := "1"; Staff.name := "Ana"; Staff.specialization := "Stylist";
     Staff.photo := "https://example.com/ana.png"; Staff.salonId := "1" |}.

Definition staff2 : Staff.t :=
  {| Staff.id := "2"; Staff.name := "Ben"; Staff.specialization := "Barber";
     Staff.photo := "https://example.com/ben.png"; Staff.salonId := "2" |}.

Definition slot (i t : string) (a : bool) : Schedule.t :=
  {| Schedule.id := i; Schedule.time := t; Schedule.isAvailable := a |}.

Definition demoUser : StoredUser.t :=
  {| StoredUser.id := "user-1"; StoredUser.name := "Demo User";
     StoredUser.phone := "1234567890"; StoredUser.email := "demo@salon.com";
     StoredUser.password := "demo123" |}.

Definition demo : Document :=
  {| salons := [salon1; salon2];
     services := [haircut; colour; shave];
     staff := [staff1; staff2];
     schedules := [slot "1" "9:00 AM" true; slot "2" "10:00 AM" false;
                   slot "3" "11:00 AM" true; slot "4" "2:00 PM" true;
                   slot "5" "3:00 PM" false];
     users := [demoUser];
     bookings := Some [] |}.

Definition demoBooking : BookingInput.t :=
  {| BookingInput.userId := "user-1"; BookingInput.salonId := "1";
     BookingInput.serviceIds := ["1"; "2"]; BookingInput.staffId := "1";
     BookingInput.time := "9:00 AM" |}.

(** ** Vocabulary of the properties *)

(** *** Outcomes *)

(** The value a run returned, if it did not throw. *)
Definition returned {A} (r : Outcome A * World) : option A :=
  match fst r with
  | Returned a => Some a
  | Thrown _ => None
  end.

(** Whether a run threw. *)
Definition thrown {A} (r : Outcome A * World) : bool :=
  match fst r with
  | Returned _ => false
  | Thrown _ => true
  end.

(** *** [createBooking], piece by piece *)

(** The three lookups of [createBooking], on the document it read. *)
Definition found_salon (data : Document) (input : BookingInput.t)
  : option Salon.t :=
  find (fun s => Salon.id s =? BookingInput.salonId input) (salons data).

Definition found_staff (data : Document) (input : BookingInput.t)
  : option Staff.t :=
  find (fun s => Staff.id s =? BookingInput.staffId input) (staff data).

Definition found_services (data : Document) (input : BookingInput.t)
  : list Service.t :=
  filter (fun s => includes (BookingInput.serviceIds input) (Service.id s))
    (services data).

(** The booking [createBooking] builds from what it found. *)
Definition new_booking (input : BookingInput.t) (now : N)
    (salon : Salon.t) (services : list Service.t) (staff : Staff.t)
  : Booking.t :=
  {| Booking.id := "booking-" ++ decimal now;
     Booking.userId := BookingInput.userId input;
     Booking.salon := salon;
     Booking.services := services;
     Booking.staff := staff;
     Booking.time := BookingInput.time input |}.

(** *** [register], piece by piece *)

(** The checks of [register] in the order the specification lists them,
    each with the message it reports: email already registered, a blank
    field, short phone, email without "@", short password. *)
Definition register_checks (data : Document) (input : RegisterInput.t)
  : list (bool * string) :=
  [ (existsb (fun u => StoredUser.email u =? RegisterInput.email input)
       (users data), msg_exists);
    (blank (RegisterInput.name input) || blank (RegisterInput.phone input)
     || blank (RegisterInput.email input)
     || blank (RegisterInput.password input), msg_required);
    ((String.length (RegisterInput.phone input) <? 10)%nat, msg_phone);
    (negb (str_includes (RegisterInput.email input) "@"), msg_email);
    ((String.length (RegisterInput.password input) <? 6)%nat, msg_password) ].

(** The message of the first check that fails, if any does. *)
Fixpoint first_failure (checks : list (bool * string)) : option string :=
  match checks with
  | [] => None
  | (true, message) :: _ => Some message
  | (false, _) :: rest => first_failure rest
  end.

(** The user [register] builds, and its answer on success. *)
Definition new_user (input : RegisterInput.t) (now : N) : StoredUser.t :=
  {| StoredUser.id := "user-" ++ decimal now;
     StoredUser.name := RegisterInput.name input;
     StoredUser.phone := RegisterInput.phone input;
     StoredUser.email := RegisterInput.email input;
     StoredUser.password := RegisterInput.password input |}.

Definition registered (u : StoredUser.t) : AuthResponse.t :=
  {| AuthResponse.success := true;
     AuthResponse.message := msg_registered;
     AuthResponse.user := Some (userWithoutPassword u) |}.

(** The scenario of the specification: [register("", "123", "bad", "ab")]. *)
Definition malformed : RegisterInput.t :=
  {| RegisterInput.name := ""; RegisterInput.phone := "123";
     RegisterInput.email := "bad"; RegisterInput.password := "ab" |}.

(** *** Properties as the specification words them *)

(** The bookings of the store before a call. *)
Definition prior_bookings (w : World) : list Booking.t :=
  or_empty (bookings (file w)).

(** The round-trip property as the specification words it: the new
    booking is listed by [getBookings], and its id differs from the id of
    every booking that was already stored. *)
Definition roundtrip_with_fresh_id (input : BookingInput.t) (now : N)
    (w : World) : Prop :=
  forall booking w',
    createBooking input now w = (Returned booking, w') ->
    (exists l, getBookings (BookingInput.userId input) w' = (Returned l, w')
               /\ In booking l)
    /\ forall b0, In b0 (prior_bookings w) -> Booking.id b0 <> Booking.id booking.

(** The data-model invariant as the specification words it: a booking is
    only created for the id of a stored user. *)
Definition booked_user_exists (input : BookingInput.t) (now : N) (w : World)
  : Prop :=
  forall booking w',
    createBooking input now w = (Returned booking, w') ->
    exists u, In u (users (file w))
              /\ StoredUser.id u = Booking.userId booking.

(** *** Frames *)

(** The imported module and the seed collections of the file are the same
    in both stores. *)
Definition same_catalogue (w w' : World) : Prop :=
  imported w' = imported w
  /\ salons (file w') = salons (file w)
  /\ services (file w') = services (file w)
  /\ staff (file w') = staff (file w)
  /\ schedules (file w') = schedules (file w).

(** Whether the three lookups of [createBooking] succeed. *)
Definition resolves (data : Document) (input : BookingInput.t) : bool :=
  match found_salon data input, found_staff data input,
        found_services data input with
  | Some _, Some _, _ :: _ => true
  | _, _, _ => false
  end.

(** The same booking request for another time. *)
Definition with_time (input : BookingInput.t) (time : string)
  : BookingInput.t :=
  {| BookingInput.userId := BookingInput.userId input;
     BookingInput.salonId := BookingInput.salonId input;
     BookingInput.serviceIds := BookingInput.serviceIds input;
     BookingInput.staffId := BookingInput.staffId input;
     BookingInput.time := time |}.

(** How many stored bookings are for the time [time]. *)
Definition bookings_at (time : string) (w : World) : nat :=
  List.length (filter (fun b => Booking.time b =? time) (prior_bookings w)).

(** *** Example requests *)

(** A booking for a user id that is not in [demo]. *)
Definition strangerBooking : BookingInput.t :=
  {| BookingInput.userId := "nobody"; BookingInput.salonId := "1";
     BookingInput.serviceIds := ["1"]; BookingInput.staffId := "1";
     BookingInput.time := "9:00 AM" |}.

Definition ann : RegisterInput.t :=
  {| RegisterInput.name := "Ann"; RegisterInput.phone := "0123456789";
     RegisterInput.email := "ann@salon.com"; RegisterInput.password := "secret" |}.

Definition ann_again : RegisterInput.t :=
  {| RegisterInput.name := "Another Ann"; RegisterInput.phone := "9876543210";
     RegisterInput.email := "ann@salon.com"; RegisterInput.password := "hunter22" |}.

Definition demoLogin : LoginInput.t :=
  {| LoginInput.email := "demo@salon.com"; LoginInput.password := "demo123" |}.

(** ** More vocabulary: clocks, valid users *)

(** What [register] requires of the four fields before it stores a user. *)
Definition valid_user (u : StoredUser.t) : bool :=
  negb (blank (StoredUser.name u)) && negb (blank (StoredUser.phone u))
  && negb (blank (StoredUser.email u)) && negb (blank (StoredUser.password u))
  && (10 <=? String.length (StoredUser.phone u))%nat
  && str_includes (StoredUser.email u) "@"
  && (6 <=? String.length (StoredUser.password u))%nat.

(** The clock values read by the [createBooking] calls of a request
    sequence, and by its [register] calls. *)
Definition booking_clocks (rs : list Request) : list N :=
  flat_map (fun r => match r with CreateBooking _ now => [now] | _ => [] end) rs.

Definition register_clocks (rs : list Request) : list N :=
  flat_map (fun r => match r with Register _ now => [now] | _ => [] end) rs.

(** The ids stored in the file. *)
Definition booking_ids (w : World) : list string :=
  map Booking.id (prior_bookings w).

Definition user_ids (w : World) : list string :=
  map StoredUser.id (users (file w)).

(** The answer of a resolver, when it returns. *)
Definition answer {A} (default : A) (r : Outcome A * World) : A :=
  match fst r with
  | Returned a => a
  | Thrown _ => default
  end.

(** A request that is answered without a successful mutation: a query, a
    login, a [createBooking] that throws, a [register] that answers
    [success:false]. *)
Definition quiet (w : World) (r : Request) : bool :=
  match r with
  | CreateBooking input now => thrown (createBooking input now w)
  | Register input now =>
      negb (AuthResponse.success (answer (failure "") (register input now w)))
  | _ => true
  end.

(** The id [createBooking] gives at clock value [t], and [register]'s. *)
Definition booking_id (t : N) : string := "booking-" ++ decimal t.

Definition user_id (t : N) : string := "user-" ++ decimal t.

(** ** The mock resolver of [mocks/browser.ts] *)

(** The booking the mock builds: [find] may have found nothing, and there
    is no [userId]. *)
Module MockBooking.
Record t := mk {
  id : string;
  salon : option Salon.t;
  services : list Service.t;
  staff : option Staff.t;
  time : string
}.
End MockBooking.

Module MockParams.
Record t := mk {
  salonId : string;
  serviceIds : list string;
  staffId : string;
  time : string
}.
End MockParams.

(** [mockGraphQLResolver.createBooking], over the [sampleData] the client
    bundle imported.  It neither validates nor stores anything. *)
Definition mockCreateBooking (sampleData : Document) (params : MockParams.t)
    (now : N) : MockBooking.t :=
  let salon :=
    find (fun s => Salon.id s =? MockParams.salonId params) (salons sampleData) in
  let services :=
    filter (fun s => includes (MockParams.serviceIds params) (Service.id s))
      (services sampleData) in
  let staff :=
    find (fun s => Staff.id s =? MockParams.staffId params) (staff sampleData) in
  {| MockBooking.id := "booking-" ++ decimal now;
     MockBooking.salon := salon;
     MockBooking.services := services;
     MockBooking.staff := staff;
     MockBooking.time := MockParams.time params |}.

(** The parameters the mock takes out of a booking request. *)
Definition mock_params (input : BookingInput.t) : MockParams.t :=
  {| MockParams.salonId := BookingInput.salonId input;
     MockParams.serviceIds := BookingInput.serviceIds input;
     MockParams.staffId := BookingInput.staffId input;
     MockParams.time := BookingInput.time input |}.

(** ** The booking screen: state and synchronous handlers
       ([app/booking.tsx]) *)

Module Step.
Inductive t :=
| login | signup | salon | services | staff | schedule | confirmation | success.
End Step.

Module Tab.
Inductive t := home | bookings | profile.
End Tab.

(** The client's [Salon] and [Booking] types (the service layer's): no
    [specialties], no [userId]. *)
Module ClientSalon.
Record t := mk {
  id : string;
  name : string;
  address : string;
  rating : float
}.
End ClientSalon.

Module ClientBooking.
Record t := mk {
  id : string;
  salon : ClientSalon.t;
  services : list Service.t;
  staff : Staff.t;
  time : string
}.
End ClientBooking.

(** The [useState] cells of [SalonBookingApp]. *)
Module Screen.
Record t := mk {
  isAuthenticated : bool;
  currentUser : option User.t;
  email : string;
  password : string;
  signupName : string;
  signupPhone : string;
  signupEmail : string;
  signupPassword : string;
  signupConfirmPassword : string;
  activeTab : Tab.t;
  step : Step.t;
  loading : bool;
  salons : list ClientSalon.t;
  services : list Service.t;
  staff : list Staff.t;
  schedules : list Schedule.t;
  selectedSalon : option ClientSalon.t;
  selectedServices : list Service.t;
  selectedStaff : option Staff.t;
  selectedSchedule : option Schedule.t;
  myBookings : list ClientBooking.t
}.
End Screen.

(** The state the component starts in. *)
Definition initialScreen : Screen.t :=
  {| Screen.isAuthenticated := false; Screen.currentUser := None;
     Screen.email := ""; Screen.password := "";
     Screen.signupName := ""; Screen.signupPhone := "";
     Screen.signupEmail := ""; Screen.signupPassword := "";
     Screen.signupConfirmPassword := "";
     Screen.activeTab := Tab.home; Screen.step := Step.login;
     Screen.loading := false;
     Screen.salons := []; Screen.services := []; Screen.staff := [];
     Screen.schedules := [];
     Screen.selectedSalon := None; Screen.selectedServices := [];
     Screen.selectedStaff := None; Screen.selectedSchedule := None;
     Screen.myBookings := [] |}.

(** The state setters the handlers below call. *)
Definition setIsAuthenticated (v : bool) (c : Screen.t) : Screen.t :=
  {| Screen.isAuthenticated := v;
     Screen.currentUser := Screen.currentUser c;
     Screen.email := Screen.email c;
     Screen.password := Screen.password c;
     Screen.signupName := Screen.signupName c;
     Screen.signupPhone := Screen.signupPhone c;
     Screen.signupEmail := Screen.signupEmail c;
     Screen.signupPassword := Screen.signupPassword c;
     Screen.signupConfirmPassword := Screen.signupConfirmPassword c;
     Screen.activeTab := Screen.activeTab c;
     Screen.step := Screen.step c;
     Screen.loading := Screen.loading c;
     Screen.salons := Screen.salons c;
     Screen.services := Screen.services c;
     Screen.staff := Screen.staff c;
     Screen.schedules := Screen.schedules c;
     Screen.selectedSalon := Screen.selectedSalon c;
     Screen.selectedServices := Screen.selectedServices c;
     Screen.selectedStaff := Screen.selectedStaff c;
     Screen.selectedSchedule := Screen.selectedSchedule c;
     Screen.myBookings := Screen.myBookings c |}.

Definition setActiveTab (v : Tab.t) (c : Screen.t) : Screen.t :=
  {| Screen.isAuthenticated := Screen.isAuthenticated c;
     Screen.currentUser := Screen.currentUser c;
     Screen.email := Screen.email c;
     Screen.password := Screen.password c;
     Screen.signupName := Screen.signupName c;
     Screen.signupPhone := Screen.signupPhone c;
     Screen.signupEmail := Screen.signupEmail c;
     Screen.signupPassword := Screen.signupPassword c;
     Screen.signupConfirmPassword := Screen.signupConfirmPassword c;
     Screen.activeTab := v;
     Screen.step := Screen.step c;
     Screen.loading := Screen.loading c;
     Screen.salons := Screen.salons c;
     Screen.services := Screen.services c;
     Screen.staff := Screen.staff c;
     Screen.schedules := Screen.schedules c;
     Screen.selectedSalon := Screen.selectedSalon c;
     Screen.selectedServices := Screen.selectedServices c;
     Screen.selectedStaff := Screen.selectedStaff c;
     Screen.selectedSchedule := Screen.selectedSchedule c;
     Screen.myBookings := Screen.myBookings c |}.

Definition setStep (v : Step.t) (c : Screen.t) : Screen.t :=
  {| Screen.isAuthenticated := Screen.isAuthenticated c;
     Screen.currentUser := Screen.currentUser c;
     Screen.email := Screen.email c;
     Screen.password := Screen.password c;
     Screen.signupName := Screen.signupName c;
     Screen.signupPhone := Screen.signupPhone c;
     Screen.signupEmail := Screen.signupEmail c;
     Screen.signupPassword := Screen.signupPassword c;
     Screen.signupConfirmPassword := Screen.signupConfirmPassword c;
     Screen.activeTab := Screen.activeTab c;
     Screen.step := v;
     Screen.loading := Screen.loading c;
     Screen.salons := Screen.salons c;
     Screen.services := Screen.services c;
     Screen.staff := Screen.staff c;
     Screen.schedules := Screen.schedules c;
     Screen.selectedSalon := Screen.selectedSalon c;
     Screen.selectedServices := Screen.selectedServices c;
     Screen.selectedStaff := Screen.selectedStaff c;
     Screen.selectedSchedule := Screen.selectedSchedule c;
     Screen.myBookings := Screen.myBookings c |}.

Definition setLoading (v : bool) (c : Screen.t) : Screen.t :=
  {| Screen.isAuthenticated := Screen.isAuthenticated c;
     Screen.currentUser := Screen.currentUser c;
     Screen.email := Screen.email c;
     Screen.password := Screen.password c;
     Screen.signupName := Screen.signupName c;
     Screen.signupPhone := Screen.signupPhone c;
     Screen.signupEmail := Screen.signupEmail c;
     Screen.signupPassword := Screen.signupPassword c;
     Screen.signupConfirmPassword := Screen.signupConfirmPassword c;
     Screen.activeTab := Screen.activeTab c;
     Screen.step := Screen.step c;
     Screen.loading := v;
     Screen.salons := Screen.salons c;
     Screen.services := Screen.services c;
     Screen.staff := Screen.staff c;
     Screen.schedules := Screen.schedules c;
     Screen.selectedSalon := Screen.selectedSalon c;
     Screen.selectedServices := Screen.selectedServices c;
     Screen.selectedStaff := Screen.selectedStaff c;
     Screen.selectedSchedule := Screen.selectedSchedule c;
     Screen.myBookings := Screen.myBookings c |}.

Definition setSelectedSalon (v : option ClientSalon.t) (c : Screen.t) : Screen.t :=
  {| Screen.isAuthenticated := Screen.isAuthenticated c;
     Screen.currentUser := Screen.currentUser c;
     Screen.email := Screen.email c;
     Screen.password := Screen.password c;
     Screen.signupName := Screen.signupName c;
     Screen.signupPhone := Screen.signupPhone c;
     Screen.signupEmail := Screen.signupEmail c;
     Screen.signupPassword := Screen.signupPassword c;
     Screen.signupConfirmPassword := Screen.signupConfirmPassword c;
     Screen.activeTab := Screen.activeTab c;
     Screen.step := Screen.step c;
     Screen.loading := Screen.loading c;
     Screen.salons := Screen.salons c;
     Screen.services := Screen.services c;
     Screen.staff := Screen.staff c;
     Screen.schedules := Screen.schedules c;
     Screen.selectedSalon := v;
     Screen.selectedServices := Screen.selectedServices c;
     Screen.selectedStaff := Screen.selectedStaff c;
     Screen.selectedSchedule := Screen.selectedSchedule c;
     Screen.myBookings := Screen.myBookings c |}.

Definition setSelectedServices (v : list Service.t) (c : Screen.t) : Screen.t :=
  {| Screen.isAuthenticated := Screen.isAuthenticated c;
     Screen.currentUser := Screen.currentUser c;
     Screen.email := Screen.email c;
     Screen.password := Screen.password c;
     Screen.signupName := Screen.signupName c;
     Screen.signupPhone := Screen.signupPhone c;
     Screen.signupEmail := Screen.signupEmail c;
     Screen.signupPassword := Screen.signupPassword c;
     Screen.signupConfirmPassword := Screen.signupConfirmPassword c;
     Screen.activeTab := Screen.activeTab c;
     Screen.step := Screen.step c;
     Screen.loading := Screen.loading c;
     Screen.salons := Screen.salons c;
     Screen.services := Screen.services c;
     Screen.staff := Screen.staff c;
     Screen.schedules := Screen.schedules c;
     Screen.selectedSalon := Screen.selectedSalon c;
     Screen.selectedServices := v;
     Screen.selectedStaff := Screen.selectedStaff c;
     Screen.selectedSchedule := Screen.selectedSchedule c;
     Screen.myBookings := Screen.myBookings c |}.

Definition setSelectedStaff (v : option Staff.t) (c : Screen.t) : Screen.t :=
  {| Screen.isAuthenticated := Screen.isAuthenticated c;
     Screen.currentUser := Screen.currentUser c;
     Screen.email := Screen.email c;
     Screen.password := Screen.password c;
     Screen.signupName := Screen.signupName c;
     Screen.signupPhone := Screen.signupPhone c;
     Screen.signupEmail := Screen.signupEmail c;
     Screen.signupPassword := Screen.signupPassword c;
     Screen.signupConfirmPassword := Screen.signupConfirmPassword c;
     Screen.activeTab := Screen.activeTab c;
     Screen.step := Screen.step c;
     Screen.loading := Screen.loading c;
     Screen.salons := Screen.salons c;
     Screen.services := Screen.services c;
     Screen.staff := Screen.staff c;
     Screen.schedules := Screen.schedules c;
     Screen.selectedSalon := Screen.selectedSalon c;
     Screen.selectedServices := Screen.selectedServices c;
     Screen.selectedStaff := v;
     Screen.selectedSchedule := Screen.selectedSchedule c;
     Screen.myBookings := Screen.myBookings c |}.

Definition setSelectedSchedule (v : option Schedule.t) (c : Screen.t) : Screen.t :=
  {| Screen.isAuthenticated := Screen.isAuthenticated c;
     Screen.currentUser := Screen.currentUser c;
     Screen.email := Screen.email c;
     Screen.password := Screen.password c;
     Screen.signupName := Screen.signupName c;
     Screen.signupPhone := Screen.signupPhone c;
     Screen.signupEmail := Screen.signupEmail c;
     Screen.signupPassword := Screen.signupPassword c;
     Screen.signupConfirmPassword := Screen.signupConfirmPassword c;
     Screen.activeTab := Screen.activeTab c;
     Screen.step := Screen.step c;
     Screen.loading := Screen.loading c;
     Screen.salons := Screen.salons c;
     Screen.services := Screen.services c;
     Screen.staff := Screen.staff c;
     Screen.schedules := Screen.schedules c;
     Screen.selectedSalon := Screen.selectedSalon c;
     Screen.selectedServices := Screen.selectedServices c;
     Screen.selectedStaff := Screen.selectedStaff c;
     Screen.selectedSchedule := v;
     Screen.myBookings := Screen.myBookings c |}.

(** What a handler starts besides updating the state: a request to the
    service layer, an alert, or a failed non-null assertion. *)
Inductive Effect : Type :=
| FetchSalons
| FetchStaff (salonId : string)
| Alert (title message : string)
| TypeError.

(** [loadSalons] up to its [await]: the loading flag is raised and the
    salons are requested. *)
Definition loadSalons (c : Screen.t) : Screen.t * list Effect :=
  (setLoading true c, [FetchSalons]).

Definition resetBooking (c : Screen.t) : Screen.t * list Effect :=
  let c := setStep Step.salon c in
  let c := setSelectedSalon None c in
  let c := setSelectedServices [] c in
  let c := setSelectedStaff None c in
  let c := setSelectedSchedule None c in
  loadSalons c.

(** [toggleService] as a handler on the screen. *)
Definition onToggleService (service : Service.t) (c : Screen.t) : Screen.t :=
  setSelectedServices (toggleService service (Screen.selectedServices c)) c.

(** [proceedToStaff] up to its [await]. *)
Definition proceedToStaff (c : Screen.t) : Screen.t * list Effect :=
  if (List.length (Screen.selectedServices c) =? 0)%nat
  then (c, [Alert "Error" "Please select at least one service"])
  else
    let c := setLoading true c in
    match Screen.selectedSalon c with
    | Some salon => (c, [FetchStaff (ClientSalon.id salon)])
    | None => (c, [TypeError])
    end.

Definition handleScheduleSelect (schedule : Schedule.t) (c : Screen.t)
  : Screen.t :=
  if negb (Schedule.isAvailable schedule) then c
  else
    let c := setSelectedSchedule (Some schedule) c in
    setStep Step.confirmation c.

Definition handleBack (c : Screen.t) : Screen.t * list Effect :=
  match Screen.step c with
  | Step.services =>
      let c := setStep Step.salon c in
      (setSelectedServices [] c, [])
  | Step.staff =>
      let c := setStep Step.services c in
      (setSelectedStaff None c, [])
  | Step.schedule =>
      let c := setStep Step.staff c in
      (setSelectedSchedule None c, [])
  | Step.confirmation => (setStep Step.schedule c, [])
  | Step.success => resetBooking c
  | _ => (c, [])
  end.

Definition step_eqb (a b : Step.t) : bool :=
  match a, b with
  | Step.login, Step.login | Step.signup, Step.signup
  | Step.salon, Step.salon | Step.services, Step.services
  | Step.staff, Step.staff | Step.schedule, Step.schedule
  | Step.confirmation, Step.confirmation | Step.success, Step.success => true
  | _, _ => false
  end.

Definition tab_eqb (a b : Tab.t) : bool :=
  match a, b with
  | Tab.home, Tab.home | Tab.bookings, Tab.bookings
  | Tab.profile, Tab.profile => true
  | _, _ => false
  end.

Definition shouldShowBack (c : Screen.t) : bool :=
  negb (step_eqb (Screen.step c) Step.salon)
  && negb (step_eqb (Screen.step c) Step.login)
  && negb (step_eqb (Screen.step c) Step.signup)
  && negb (step_eqb (Screen.step c) Step.success).

(** The effect on [activeTab]: back on the home tab while logged in and
    past the salon step, the flow restarts. *)
Definition homeTabEffect (c : Screen.t) : Screen.t :=
  if tab_eqb (Screen.activeTab c) Tab.home && Screen.isAuthenticated c then
    if negb (step_eqb (Screen.step c) Step.login)
       && negb (step_eqb (Screen.step c) Step.signup)
       && negb (step_eqb (Screen.step c) Step.salon)
    then
      let c := setStep Step.salon c in
      let c := setSelectedSalon None c in
      let c := setSelectedServices [] c in
      let c := setSelectedStaff None c in
      setSelectedSchedule None c
    else c
  else c.

(** [onTabChange]: [setActiveTab], then the effect if [activeTab] changed. *)
Definition onTabChange (tab : Tab.t) (c : Screen.t) : Screen.t :=
  if tab_eqb tab (Screen.activeTab c) then c
  else homeTabEffect (setActiveTab tab c).

(** Position of a step in the wizard. *)
Definition step_index (s : Step.t) : nat :=
  match s with
  | Step.login | Step.signup => 0
  | Step.salon => 1
  | Step.services => 2
  | Step.staff => 3
  | Step.schedule => 4
  | Step.confirmation => 5
  | Step.success => 6
  end.

(** A run of toggles, first to last. *)
Definition toggleAll (toggles : list Service.t) (selected : list Service.t)
  : list Service.t :=
  fold_left (fun sel s => toggleService s sel) toggles selected.

(** Whether a service id is selected (what the screen ticks). *)
Definition isSelected (id : string) (selected : list Service.t) : bool :=
  existsb (fun s => Service.id s =? id) selected.

(** How often a service id occurs in a run of toggles. *)
Definition toggle_count (id : string) (toggles : list Service.t) : nat :=
  List.length (filter (fun s => Service.id s =? id) toggles).

(** ** Facts about the JavaScript helpers *)

(** Unfolds the plumbing of a resolver down to the store it reads and
    writes. *)
Ltac run_resolver :=
  unfold bind, delay, ret, throw, sampleData, readData, writeData; simpl.

Lemma includes_In (xs : list string) (x : string) :
  includes xs x = true <-> In x xs.
Proof.
  unfold includes. rewrite existsb_exists. split.
  - intros [y [Hy Heq]]. apply String.eqb_eq in Heq. now subst.
  - intros Hx. exists x. split; [assumption | apply String.eqb_refl].
Qed.

Lemma find_existsb {A} (f : A -> bool) (l : list A) :
  existsb f l = match find f l with Some _ => true | None => false end.
Proof.
  induction l as [| a l IH]; simpl; [reflexivity |].
  destruct (f a); simpl; [reflexivity | exact IH].
Qed.

Lemma find_None_iff {A} (f : A -> bool) (l : list A) :
  find f l = None <-> (forall x, In x l -> f x = false).
Proof.
  split.
  - apply find_none.
  - induction l as [| a l IH]; simpl; intros H; [reflexivity |].
    rewrite (H a (or_introl eq_refl)). apply IH.
    intros x Hx. apply H. now right.
Qed.

Lemma filter_nil_iff {A} (f : A -> bool) (l : list A) :
  filter f l = [] <-> (forall x, In x l -> f x = false).
Proof.
  induction l as [| a l IH]; simpl.
  - split; [intros _ x [] | reflexivity].
  - destruct (f a) eqn:Hfa; split.
    + discriminate.
    + intros H. specialize (H a (or_introl eq_refl)). congruence.
    + intros H x [<- | Hx]; [assumption | now apply IH].
    + intros H. apply IH. intros x Hx. apply H. now right.
Qed.

(** Decimal rendering is injective: different clock values give different
    ids. *)
Lemma decimal_inj (m n : N) : decimal m = decimal n -> m = n.
Proof.
  unfold decimal. intros H.
  assert (Hu : N.to_uint m = N.to_uint n).
  { apply (f_equal NilEmpty.uint_of_string) in H.
    rewrite !NilEmpty.usu in H. now injection H. }
  apply (f_equal N.of_uint) in Hu.
  now rewrite !DecimalN.Unsigned.of_to in Hu.
Qed.

(** ** How a resolver runs *)

(** [createBooking] in one equation: what it answers and what it leaves in
    the store, by cases on the three lookups. *)
Lemma createBooking_eq (input : BookingInput.t) (now : N) (w : World) :
  createBooking input now w =
  match found_salon (file w) input, found_staff (file w) input,
        found_services (file w) input with
  | Some salon, Some staff, (_ :: _) as services =>
      let booking := new_booking input now salon services staff in
      (Returned booking,
       {| imported := imported w;
          file := push_booking (file w) booking |})
  | _, _, _ => (Thrown invalid_booking, w)
  end.
Proof.
  unfold createBooking, found_salon, found_staff, found_services, new_booking.
  run_resolver.
  destruct (find _ (salons (file w))) as [salon |]; [| reflexivity].
  destruct (find _ (staff (file w))) as [st |]; [| reflexivity].
  destruct (filter _ (services (file w))) as [| s ss]; reflexivity.
Qed.

Example createBooking_demo :
  returned (createBooking demoBooking 1700000000000 (boot demo)) =
  Some {| Booking.id := "booking-1700000000000"; Booking.userId := "user-1";
          Booking.salon := salon1; Booking.services := [haircut; colour];
          Booking.staff := staff1; Booking.time := "9:00 AM" |}.
Proof. reflexivity. Qed.

(** ** Booking creation fails cleanly *)

(** C1. If the store has no salon with id [salonId], or no staff with id
    [staffId], or no service whose id is in [serviceIds], then
    [createBooking] throws instead of returning a booking and the store is
    what it was: nothing is written, so no booking is appended. *)
Theorem createBooking_not_found (input : BookingInput.t) (now : N) (w : World) :
  (~ exists s, In s (salons (file w)) /\ Salon.id s = BookingInput.salonId input)
  \/ (~ exists s, In s (staff (file w)) /\ Staff.id s = BookingInput.staffId input)
  \/ (~ exists s, In s (services (file w))
                  /\ In (Service.id s) (BookingInput.serviceIds input)) ->
  createBooking input now w = (Thrown invalid_booking, w).
Proof.
  intros H. rewrite createBooking_eq.
  destruct (found_salon (file w) input) as [salon |] eqn:Hsalon; [| reflexivity].
  destruct (found_staff (file w) input) as [st |] eqn:Hstaff; [| reflexivity].
  destruct (found_services (file w) input) as [| s ss] eqn:Hserv; [reflexivity |].
  exfalso. destruct H as [H | [H | H]]; apply H.
  - apply find_some in Hsalon. destruct Hsalon as [Hin Heq].
    exists salon. split; [assumption | now apply String.eqb_eq].
  - apply find_some in Hstaff. destruct Hstaff as [Hin Heq].
    exists st. split; [assumption | now apply String.eqb_eq].
  - assert (Hs : In s (found_services (file w) input))
      by (rewrite Hserv; now left).
    apply filter_In in Hs. destruct Hs as [Hin Hinc].
    exists s. split; [assumption | now apply includes_In].
Qed.

Lemma createBooking_not_found_witness :
  createBooking
    {| BookingInput.userId := "user-1"; BookingInput.salonId := "1";
       BookingInput.serviceIds := ["9"]; BookingInput.staffId := "1";
       BookingInput.time := "9:00 AM" |} 1700000000000 (boot demo)
  = (Thrown invalid_booking, boot demo).
Proof.
  apply createBooking_not_found. right. right.
  intros [s [Hin Hid]]. simpl in Hin, Hid.
  destruct Hin as [<- | [<- | [<- | []]]]; simpl in Hid;
    destruct Hid as [Hid | []]; discriminate Hid.
Defined.

(** ** Registration: the order of the checks *)

(** [register] in one equation. *)
Lemma register_eq (input : RegisterInput.t) (now : N) (w : World) :
  register input now w =
    match first_failure (register_checks (file w) input) with
    | Some message => (Returned (failure message), w)
    | None =>
        (Returned (registered (new_user input now)),
         {| imported := imported w;
            file := push_user (file w) (new_user input now) |})
    end.
Proof.
  unfold register, register_checks, first_failure, registered, new_user.
  run_resolver.
  rewrite find_existsb.
  destruct (find _ (users (file w))) as [u |]; [reflexivity |].
  destruct (blank (RegisterInput.name input) || _ || _ || _);
    [reflexivity |].
  destruct (String.length (RegisterInput.phone input) <? 10)%nat;
    [reflexivity |].
  destruct (str_includes (RegisterInput.email input) "@"); simpl;
    [| reflexivity].
  destruct (String.length (RegisterInput.password input) <? 6)%nat;
    reflexivity.
Qed.

(** C2. [register] answers with the message of the first failing check, in
    the order: email already registered, a field blank, phone shorter than
    10, email without "@", password shorter than 6; a failure leaves the
    store as it was, and when no check fails the user is appended.  In
    particular [register("", "123", "bad", "ab")], when "bad" is not a
    registered email, fails with the all-fields-required message although
    the phone, email and password checks would fail on it as well. *)
Theorem register_validation_order (input : RegisterInput.t) (now : N) (w : World) :
  register input now w =
    match first_failure (register_checks (file w) input) with
    | Some message => (Returned (failure message), w)
    | None =>
        (Returned (registered (new_user input now)),
         {| imported := imported w;
            file := push_user (file w) (new_user input now) |})
    end
  /\ ((forall u, In u (users (file w)) -> StoredUser.email u <> "bad") ->
      register malformed now w = (Returned (failure msg_required), w)
      /\ map fst (register_checks (file w) malformed)
         = [false; true; true; true; true]).
Proof.
  split; [apply register_eq |].
  intros Hfresh.
  assert (Hnone : existsb (fun u => StoredUser.email u =? "bad")
                    (users (file w)) = false).
  { rewrite find_existsb.
    replace (find _ (users (file w))) with (@None StoredUser.t); [reflexivity |].
    symmetry. apply find_None_iff. intros u Hu.
    apply String.eqb_neq. now apply Hfresh. }
  split.
  - rewrite register_eq. unfold register_checks; simpl.
    now rewrite Hnone.
  - unfold register_checks; simpl. now rewrite Hnone.
Qed.

Lemma register_validation_order_witness :
  register malformed 1700000000000 (boot demo)
  = (Returned (failure msg_required), boot demo).
Proof.
  apply (register_validation_order malformed 1700000000000 (boot demo)).
  intros u Hu. simpl in Hu. destruct Hu as [<- | []]. discriminate.
Defined.

(** The later checks are reached, each in turn, once the earlier ones
    pass. *)
Example register_short_phone :
  fst (register (RegisterInput.mk "Ann" "123" "bad" "ab") 0 (boot demo))
  = Returned (failure msg_phone).
Proof. reflexivity. Qed.

Example register_bad_email :
  fst (register (RegisterInput.mk "Ann" "0123456789" "bad" "ab") 0 (boot demo))
  = Returned (failure msg_email).
Proof. reflexivity. Qed.

Example register_short_password :
  fst (register (RegisterInput.mk "Ann" "0123456789" "a@b" "ab") 0 (boot demo))
  = Returned (failure msg_password).
Proof. reflexivity. Qed.

Example register_taken_first :
  fst (register (RegisterInput.mk "" "" "demo@salon.com" "") 0 (boot demo))
  = Returned (failure msg_exists).
Proof. reflexivity. Qed.

(** ** Booking creation: what is stored, and under which id *)

Lemma getBookings_eq (userId : string) (w : World) :
  getBookings userId w =
  (Returned (filter (fun b => Booking.userId b =? userId)
               (or_empty (bookings (file w)))), w).
Proof. reflexivity. Qed.

(** A successful [createBooking], taken apart. *)
Lemma createBooking_returned (input : BookingInput.t) (now : N) (w w' : World)
    (booking : Booking.t) :
  createBooking input now w = (Returned booking, w') ->
  exists salon staff,
    found_salon (file w) input = Some salon
    /\ found_staff (file w) input = Some staff
    /\ found_services (file w) input <> []
    /\ booking = new_booking input now salon (found_services (file w) input) staff
    /\ w' = {| imported := imported w; file := push_booking (file w) booking |}.
Proof.
  rewrite createBooking_eq.
  destruct (found_salon (file w) input) as [salon |]; [| discriminate].
  destruct (found_staff (file w) input) as [st |]; [| discriminate].
  destruct (found_services (file w) input) as [| s ss]; [discriminate |].
  cbv zeta. intros H. injection H as Hb Hw. subst booking w'.
  exists salon, st.
  split; [reflexivity |]. split; [reflexivity |]. split; [discriminate |].
  split; reflexivity.
Qed.

Lemma booking_prefix_inj (a b : string) :
  ("booking-" ++ a = "booking-" ++ b)%string -> a = b.
Proof. simpl. intros H. now injection H. Qed.

(** Two bookings made while the clock shows the same millisecond get the
    same id. *)
Lemma same_millisecond_same_id :
  ~ roundtrip_with_fresh_id demoBooking 1700000000000
      (handle (boot demo) (CreateBooking demoBooking 1700000000000)).
Proof.
  intros H.
  specialize (H _ _ eq_refl). destruct H as [_ H].
  apply (H (new_booking demoBooking 1700000000000 salon1 [haircut; colour] staff1)).
  - simpl. left. reflexivity.
  - reflexivity.
Qed.

(** C3 (amended). After a successful [createBooking], [getBookings userId]
    on the resulting store lists the created booking, whose userId, salon,
    staff, services and time are the resolved inputs.  Its id is
    ["booking-"] followed by the clock value of the call in decimal, so it
    differs from the id of every stored booking that was made at another
    clock value. *)
Theorem createBooking_roundtrip (input : BookingInput.t) (now : N)
    (w w' : World) (booking : Booking.t) :
  createBooking input now w = (Returned booking, w') ->
  (exists l, getBookings (BookingInput.userId input) w' = (Returned l, w')
             /\ In booking l)
  /\ Booking.userId booking = BookingInput.userId input
  /\ found_salon (file w) input = Some (Booking.salon booking)
  /\ found_staff (file w) input = Some (Booking.staff booking)
  /\ Booking.services booking = found_services (file w) input
  /\ Booking.time booking = BookingInput.time input
  /\ Booking.id booking = ("booking-" ++ decimal now)%string
  /\ forall b0 t, In b0 (prior_bookings w) ->
       Booking.id b0 = ("booking-" ++ decimal t)%string -> t <> now ->
       Booking.id b0 <> Booking.id booking.
Proof.
  intros H. apply createBooking_returned in H.
  destruct H as (salon & st & Hsalon & Hstaff & _ & -> & ->).
  split.
  { eexists. split; [apply getBookings_eq |].
    apply filter_In. split.
    - simpl. apply in_or_app. right. now left.
    - apply String.eqb_refl. }
  repeat split; try assumption.
  intros b0 t _ Hid Hne Heq. apply Hne.
  rewrite Hid in Heq. simpl Booking.id in Heq.
  apply booking_prefix_inj in Heq. now apply decimal_inj.
Qed.

Lemma createBooking_roundtrip_witness :
  exists l,
    getBookings "user-1"
      (handle (boot demo) (CreateBooking demoBooking 1700000000000))
    = (Returned l,
       handle (boot demo) (CreateBooking demoBooking 1700000000000))
    /\ In (new_booking demoBooking 1700000000000 salon1 [haircut; colour] staff1) l.
Proof.
  apply (createBooking_roundtrip demoBooking 1700000000000 (boot demo)).
  reflexivity.
Defined.

(** ** Booking creation does not look at the users *)

(** A booking for a user id that is not in the store is accepted. *)
Lemma booking_for_unknown_user :
  ~ booked_user_exists strangerBooking 1700000000000 (boot demo).
Proof.
  intros H. specialize (H _ _ eq_refl).
  destruct H as [u [Hin Hid]]. simpl in Hin, Hid.
  destruct Hin as [<- | []]. discriminate Hid.
Qed.

(** C7 (amended). [createBooking] succeeds exactly when the salon id and
    the staff id resolve and at least one service id does, whether or not
    [userId] is the id of a stored user; the booking it stores carries the
    [userId] argument as given. *)
Theorem createBooking_succeeds_iff (input : BookingInput.t) (now : N) (w : World) :
  (thrown (createBooking input now w) = false <->
   (exists s, In s (salons (file w)) /\ Salon.id s = BookingInput.salonId input)
   /\ (exists s, In s (staff (file w)) /\ Staff.id s = BookingInput.staffId input)
   /\ (exists s, In s (services (file w))
                 /\ In (Service.id s) (BookingInput.serviceIds input)))
  /\ (forall booking w',
        createBooking input now w = (Returned booking, w') ->
        Booking.userId booking = BookingInput.userId input
        /\ bookings (file w') = Some (prior_bookings w ++ [booking])).
Proof.
  split; [split |].
  - intros Hok.
    destruct (found_salon (file w) input) as [salon |] eqn:Hsalon;
    [destruct (found_staff (file w) input) as [st |] eqn:Hstaff;
     [destruct (found_services (file w) input) as [| s ss] eqn:Hserv |] |];
    try (rewrite createBooking_eq, Hsalon in Hok;
         try rewrite Hstaff in Hok; try rewrite Hserv in Hok;
         discriminate Hok).
    apply find_some in Hsalon. apply find_some in Hstaff.
    assert (Hs : In s (found_services (file w) input))
      by (rewrite Hserv; now left).
    apply filter_In in Hs.
    split; [| split].
    + exists salon. split; [tauto | now apply String.eqb_eq].
    + exists st. split; [tauto | now apply String.eqb_eq].
    + exists s. split; [tauto | now apply includes_In].
  - intros Hall.
    destruct (thrown (createBooking input now w)) eqn:Hth; [| reflexivity].
    exfalso.
    assert (Hfail : createBooking input now w = (Thrown invalid_booking, w)).
    { rewrite createBooking_eq in *.
      destruct (found_salon (file w) input); [| reflexivity].
      destruct (found_staff (file w) input); [| reflexivity].
      destruct (found_services (file w) input); [reflexivity | discriminate Hth]. }
    clear Hth. rewrite createBooking_eq in Hfail.
    destruct Hall as ((sa & Hsa & Hsaid) & (st & Hst & Hstid) & (se & Hse & Hseid)).
    destruct (found_salon (file w) input) eqn:Hsalon.
    + destruct (found_staff (file w) input) eqn:Hstaff.
      * destruct (found_services (file w) input) eqn:Hserv; [| discriminate Hfail].
        unfold found_services in Hserv.
        rewrite filter_nil_iff in Hserv. specialize (Hserv se Hse).
        apply includes_In in Hseid. congruence.
      * unfold found_staff in Hstaff. rewrite find_None_iff in Hstaff.
        specialize (Hstaff st Hst). simpl in Hstaff.
        apply String.eqb_neq in Hstaff. contradiction.
    + unfold found_salon in Hsalon. rewrite find_None_iff in Hsalon.
      specialize (Hsalon sa Hsa). simpl in Hsalon.
      apply String.eqb_neq in Hsalon. contradiction.
  - intros booking w' H. apply createBooking_returned in H.
    destruct H as (salon & st & _ & _ & _ & -> & ->). split; reflexivity.
Qed.

Lemma createBooking_succeeds_iff_witness :
  Booking.userId
    (new_booking strangerBooking 1700000000000 salon1 [haircut] staff1)
  = "nobody"
  /\ bookings (file (handle (boot demo)
                       (CreateBooking strangerBooking 1700000000000)))
     = Some (prior_bookings (boot demo)
             ++ [new_booking strangerBooking 1700000000000 salon1 [haircut] staff1]).
Proof.
  apply (createBooking_succeeds_iff strangerBooking 1700000000000 (boot demo)).
  reflexivity.
Defined.

(** ** What the mutations leave alone *)

Lemma createBooking_thrown (input : BookingInput.t) (now : N) (w : World) :
  thrown (createBooking input now w) = negb (resolves (file w) input).
Proof.
  rewrite createBooking_eq. unfold resolves.
  destruct (found_salon (file w) input); [| reflexivity].
  destruct (found_staff (file w) input); [| reflexivity].
  destruct (found_services (file w) input); reflexivity.
Qed.

Lemma resolves_same_catalogue (w w' : World) (input : BookingInput.t) :
  same_catalogue w w' -> resolves (file w') input = resolves (file w) input.
Proof.
  intros (_ & Hsalons & Hservices & Hstaff & _).
  unfold resolves, found_salon, found_staff, found_services.
  now rewrite Hsalons, Hservices, Hstaff.
Qed.

Lemma createBooking_same_catalogue (input : BookingInput.t) (now : N) (w : World) :
  same_catalogue w (snd (createBooking input now w))
  /\ users (file (snd (createBooking input now w))) = users (file w).
Proof.
  rewrite createBooking_eq. unfold same_catalogue.
  destruct (found_salon (file w) input); [| now repeat split].
  destruct (found_staff (file w) input); [| now repeat split].
  destruct (found_services (file w) input); now repeat split.
Qed.

Lemma register_same_catalogue (input : RegisterInput.t) (now : N) (w : World) :
  same_catalogue w (snd (register input now w))
  /\ exists l, users (file (snd (register input now w))) = users (file w) ++ l.
Proof.
  rewrite register_eq. unfold same_catalogue.
  destruct (first_failure _); simpl.
  - repeat split. exists []. now rewrite app_nil_r.
  - repeat split. now exists [new_user input now].
Qed.

Lemma login_eq (input : LoginInput.t) (w : World) :
  login input w =
  (Returned
     match find (fun u => (StoredUser.email u =? LoginInput.email input)
                          && (StoredUser.password u =? LoginInput.password input))
             (users (file w)) with
     | None => failure msg_invalid_login
     | Some user =>
         {| AuthResponse.success := true;
            AuthResponse.message := msg_login;
            AuthResponse.user := Some (userWithoutPassword user) |}
     end, w).
Proof.
  unfold login. run_resolver.
  destruct (find _ (users (file w))); reflexivity.
Qed.

(** Every request leaves the catalogue alone and only ever appends users. *)
Lemma handle_same_catalogue (w : World) (r : Request) :
  same_catalogue w (handle w r)
  /\ exists l, users (file (handle w r)) = users (file w) ++ l.
Proof.
  assert (Hid : same_catalogue w w
                /\ exists l, users (file w) = users (file w) ++ l).
  { unfold same_catalogue. repeat split. exists []. now rewrite app_nil_r. }
  destruct r as [| salonId | salonId | staffId | userId | input now
                 | input now | input]; simpl; try exact Hid.
  - destruct (createBooking_same_catalogue input now w) as [Hc Hu].
    split; [exact Hc |]. exists []. now rewrite app_nil_r.
  - apply register_same_catalogue.
  - rewrite login_eq. exact Hid.
Qed.

Lemma serve_cons (w : World) (r : Request) (rs : list Request) :
  serve w (r :: rs) = serve (handle w r) rs.
Proof. reflexivity. Qed.

Lemma serve_same_catalogue (rs : list Request) :
  forall w, same_catalogue w (serve w rs)
            /\ exists l, users (file (serve w rs)) = users (file w) ++ l.
Proof.
  induction rs as [| r rs IH]; intros w.
  - unfold same_catalogue. simpl. repeat split. exists []. now rewrite app_nil_r.
  - rewrite serve_cons.
    destruct (IH (handle w r)) as [(Hi & Hsa & Hse & Hst & Hsc) [l Hl]].
    destruct (handle_same_catalogue w r) as [(Hi' & Hsa' & Hse' & Hst' & Hsc') [l' Hl']].
    unfold same_catalogue.
    repeat split; try congruence.
    exists (l' ++ l). rewrite Hl, Hl'. now rewrite app_assoc.
Qed.

(** C10. [createBooking], whether it succeeds or fails, leaves the salons,
    services, staff, schedules and users of the file (and the imported
    module) unchanged, so no [isAvailable] flag changes.  Whether it
    succeeds does not depend on [time]: any string is accepted, slot or
    not.  And once a booking for some input succeeds, the same input can
    be booked again any number of times: after [nows] further calls, one
    per clock value, the call still succeeds and the store holds that many
    more bookings for the same time. *)
Theorem createBooking_frame (input : BookingInput.t) (now : N) (w : World) :
  (same_catalogue w (snd (createBooking input now w))
   /\ users (file (snd (createBooking input now w))) = users (file w)
   /\ map Schedule.isAvailable (schedules (file (snd (createBooking input now w))))
      = map Schedule.isAvailable (schedules (file w)))
  /\ (forall time,
        thrown (createBooking (with_time input time) now w)
        = thrown (createBooking input now w))
  /\ (thrown (createBooking input now w) = false ->
      forall nows,
        thrown (createBooking input now
                  (serve w (map (CreateBooking input) nows))) = false
        /\ bookings_at (BookingInput.time input)
             (serve w (map (CreateBooking input) nows))
           = bookings_at (BookingInput.time input) w + List.length nows).
Proof.
  split; [| split].
  - destruct (createBooking_same_catalogue input now w) as [Hc Hu].
    repeat split; try assumption; try apply Hc.
    destruct Hc as (_ & _ & _ & _ & Hsc). now rewrite Hsc.
  - intros time. now rewrite !createBooking_thrown.
  - intros Hok nows. revert w Hok.
    induction nows as [| n nows IH]; intros w Hok.
    + simpl. split; [exact Hok | lia].
    + rewrite map_cons, serve_cons.
      assert (Hres : resolves (file w) input = true).
      { rewrite createBooking_thrown in Hok.
        now destruct (resolves (file w) input). }
      assert (Hstep : thrown (createBooking input now
                                (handle w (CreateBooking input n))) = false).
      { rewrite createBooking_thrown.
        rewrite (resolves_same_catalogue w).
        - now rewrite Hres.
        - apply handle_same_catalogue. }
      destruct (IH _ Hstep) as [Hagain Hcount].
      split; [exact Hagain |]. rewrite Hcount. cbn [List.length].
      assert (Hone : bookings_at (BookingInput.time input)
                       (handle w (CreateBooking input n))
                     = S (bookings_at (BookingInput.time input) w)).
      { unfold handle. rewrite createBooking_eq.
        unfold resolves in Hres.
        destruct (found_salon (file w) input); [| discriminate].
        destruct (found_staff (file w) input); [| discriminate].
        destruct (found_services (file w) input); [discriminate |].
        unfold bookings_at, prior_bookings; simpl.
        rewrite filter_app, length_app; simpl.
        rewrite String.eqb_refl; simpl. lia. }
      rewrite Hone. lia.
Qed.

Lemma createBooking_frame_witness :
  bookings_at "9:00 AM"
    (serve (boot demo) (map (CreateBooking demoBooking) [1; 2; 3]%N))
  = bookings_at "9:00 AM" (boot demo) + 3.
Proof.
  apply (createBooking_frame demoBooking 0 (boot demo)).
  reflexivity.
Defined.

(** The slot "10:00 AM" of [demo] is not available, and "midnight" is no
    slot at all: both are booked. *)
Example book_unavailable_slot :
  thrown (createBooking (with_time demoBooking "10:00 AM") 0 (boot demo))
  = false.
Proof. reflexivity. Qed.

Example book_no_such_slot :
  thrown (createBooking (with_time demoBooking "midnight") 0 (boot demo))
  = false.
Proof. reflexivity. Qed.

(** ** Schedules *)

(** In every store the server can reach, the schedules of the imported
    module are those of the file. *)
Lemma reachable_schedules (w : World) :
  Reachable w -> schedules (imported w) = schedules (file w).
Proof.
  intros (d & rs & ->).
  destruct (serve_same_catalogue rs (boot d)) as [(Hi & _ & _ & _ & Hsc) _].
  rewrite Hi, Hsc. reflexivity.
Qed.

(** C6. In any store the server can be in, [getStaffSchedules staffId]
    returns the whole schedule collection of the store, in stored order,
    and leaves the store alone, for every [staffId], whether or not it is
    the id of a staff member: two ids get the same answer. *)
Theorem getStaffSchedules_unfiltered (w : World) (staffId staffId' : string) :
  Reachable w ->
  getStaffSchedules staffId w = (Returned (schedules (file w)), w)
  /\ getStaffSchedules staffId w = getStaffSchedules staffId' w.
Proof.
  intros Hreach. split; [| reflexivity].
  unfold getStaffSchedules. run_resolver.
  now rewrite (reachable_schedules w Hreach).
Qed.

Lemma getStaffSchedules_unfiltered_witness :
  getStaffSchedules "no-such-staff"
    (serve (boot demo) [CreateBooking demoBooking 5; GetSalons])
  = (Returned (schedules demo),
     serve (boot demo) [CreateBooking demoBooking 5; GetSalons]).
Proof.
  apply (getStaffSchedules_unfiltered
           (serve (boot demo) [CreateBooking demoBooking 5; GetSalons])
           "no-such-staff" "1").
  exists demo, [CreateBooking demoBooking 5; GetSalons]. reflexivity.
Defined.

(** ** Registration is once per email *)

Lemma existsb_email_In (email : string) (l : list StoredUser.t) :
  existsb (fun u => StoredUser.email u =? email) l = true <->
  exists u, In u l /\ StoredUser.email u = email.
Proof.
  rewrite existsb_exists. split; intros [u [Hin Heq]]; exists u; split;
    try assumption; now apply String.eqb_eq.
Qed.

(** A successful registration puts a user with that email in the store. *)
Lemma register_success_stores (input : RegisterInput.t) (now : N)
    (w w' : World) (response : AuthResponse.t) :
  register input now w = (Returned response, w') ->
  AuthResponse.success response = true ->
  exists u, In u (users (file w'))
            /\ StoredUser.email u = RegisterInput.email input.
Proof.
  rewrite register_eq.
  destruct (first_failure _); intros H Hs; injection H as <- <-.
  - discriminate Hs.
  - exists (new_user input now). split; [| reflexivity].
    simpl. apply in_or_app. right. now left.
Qed.

(** C4. When a [register] call succeeds, every later [register] call with
    the same email, whatever requests the server answered in between,
    returns [success:false] with the already-registered message and
    leaves the store, hence its users, exactly as it was. *)
Theorem register_same_email_twice (first second : RegisterInput.t)
    (now1 now2 : N) (w w1 : World) (response : AuthResponse.t)
    (between : list Request) :
  register first now1 w = (Returned response, w1) ->
  AuthResponse.success response = true ->
  RegisterInput.email second = RegisterInput.email first ->
  register second now2 (serve w1 between)
  = (Returned (failure msg_exists), serve w1 between).
Proof.
  intros Hfirst Hsuccess Hemail.
  destruct (register_success_stores _ _ _ _ _ Hfirst Hsuccess) as (u & Hin & Hu).
  destruct (serve_same_catalogue between w1) as [_ [l Hl]].
  assert (Htaken : existsb (fun u => StoredUser.email u =? RegisterInput.email second)
                     (users (file (serve w1 between))) = true).
  { apply existsb_email_In. exists u. split; [| congruence].
    rewrite Hl. apply in_or_app. now left. }
  rewrite register_eq. unfold register_checks, first_failure.
  now rewrite Htaken.
Qed.

Lemma register_same_email_twice_witness :
  register ann_again 20
    (serve (handle (boot demo) (Register ann 10)) [CreateBooking demoBooking 15])
  = (Returned (failure msg_exists),
     serve (handle (boot demo) (Register ann 10)) [CreateBooking demoBooking 15]).
Proof.
  apply (register_same_email_twice ann ann_again 10 20 (boot demo)
           (handle (boot demo) (Register ann 10))
           (registered (new_user ann 10)) [CreateBooking demoBooking 15]);
    reflexivity.
Defined.

(** ** Login *)

(** C5. [login] succeeds exactly when a stored user has that email and
    that password, both compared as plain strings.  On success the answer
    carries the id, name, phone and email of such a user (the [User] type
    has no password field); on failure it is [success:false] with the
    generic message and no user.  The store is not touched. *)
Theorem login_correct (input : LoginInput.t) (w : World) :
  exists response,
    login input w = (Returned response, w)
    /\ (AuthResponse.success response = true <->
        exists u, In u (users (file w))
                  /\ StoredUser.email u = LoginInput.email input
                  /\ StoredUser.password u = LoginInput.password input)
    /\ (AuthResponse.success response = true ->
        exists u, In u (users (file w))
                  /\ StoredUser.email u = LoginInput.email input
                  /\ StoredUser.password u = LoginInput.password input
                  /\ AuthResponse.user response
                     = Some {| User.id := StoredUser.id u;
                               User.name := StoredUser.name u;
                               User.phone := StoredUser.phone u;
                               User.email := StoredUser.email u |})
    /\ (AuthResponse.success response = false ->
        response = failure msg_invalid_login).
Proof.
  eexists. split; [apply login_eq |].
  destruct (find _ (users (file w))) as [u |] eqn:Hfind.
  - apply find_some in Hfind. destruct Hfind as [Hin Hmatch].
    apply andb_true_iff in Hmatch. destruct Hmatch as [He Hp].
    apply String.eqb_eq in He, Hp.
    split; [| split].
    + split; [| reflexivity]. intros _. now exists u.
    + intros _. exists u. repeat split; assumption.
    + discriminate.
  - split; [| split].
    + split; [discriminate |].
      intros (u & Hin & He & Hp).
      rewrite find_None_iff in Hfind. specialize (Hfind u Hin).
      simpl in Hfind. rewrite He, Hp, !String.eqb_refl in Hfind.
      discriminate Hfind.
    + discriminate.
    + reflexivity.
Qed.

Lemma login_correct_witness :
  exists response,
    login demoLogin (boot demo) = (Returned response, boot demo)
    /\ exists u, In u (users demo)
         /\ AuthResponse.user response = Some (userWithoutPassword u).
Proof.
  destruct (login_correct demoLogin (boot demo))
    as (response & Hrun & Hiff & Huser & _).
  exists response. split; [exact Hrun |].
  assert (Hs : AuthResponse.success response = true).
  { apply Hiff. exists demoUser. repeat split. now left. }
  destruct (Huser Hs) as (u & Hin & _ & _ & Hu).
  exists u. split; assumption.
Defined.

Example login_demo :
  fst (login demoLogin (boot demo))
  = Returned {| AuthResponse.success := true;
                AuthResponse.message := "Login successful!";
                AuthResponse.user :=
                  Some {| User.id := "user-1"; User.name := "Demo User";
                          User.phone := "1234567890";
                          User.email := "demo@salon.com" |} |}.
Proof. reflexivity. Qed.

Example login_wrong_password :
  fst (login (LoginInput.mk "demo@salon.com" "wrong") (boot demo))
  = Returned (failure "Invalid email or password").
Proof. reflexivity. Qed.

Example login_case_sensitive :
  fst (login (LoginInput.mk "Demo@salon.com" "demo123") (boot demo))
  = Returned (failure "Invalid email or password").
Proof. reflexivity. Qed.

(** ** Toggling a service *)

Lemma in_ids_filter_other (id other : string) (l : list Service.t) :
  In id (map Service.id (filter (fun s => negb (Service.id s =? other)) l))
  <-> In id (map Service.id l) /\ id <> other.
Proof.
  rewrite !in_map_iff. split.
  - intros (s & <- & Hs). apply filter_In in Hs. destruct Hs as [Hin Hne].
    apply negb_true_iff, String.eqb_neq in Hne.
    split; [now exists s | assumption].
  - intros [(s & <- & Hin) Hne]. exists s. split; [reflexivity |].
    apply filter_In. split; [assumption |].
    now apply negb_true_iff, String.eqb_neq.
Qed.

(** What one toggle does to the selected ids: the id of the toggled
    service flips, every other id stays. *)
Lemma toggleService_ids (service : Service.t) (selected : list Service.t)
    (id : string) :
  In id (map Service.id (toggleService service selected)) <->
  if existsb (fun s => Service.id s =? Service.id service) selected
  then In id (map Service.id selected) /\ id <> Service.id service
  else In id (map Service.id selected) \/ id = Service.id service.
Proof.
  unfold toggleService. rewrite find_existsb.
  destruct (find _ selected) as [s |].
  - apply in_ids_filter_other.
  - rewrite map_app, in_app_iff. simpl. intuition congruence.
Qed.

Lemma toggleService_selected (service : Service.t) (selected : list Service.t) :
  existsb (fun s => Service.id s =? Service.id service)
    (toggleService service selected)
  = negb (existsb (fun s => Service.id s =? Service.id service) selected).
Proof.
  unfold toggleService. rewrite (find_existsb _ selected).
  destruct (find _ selected) as [s |]; simpl.
  - apply not_true_is_false. intros H.
    apply existsb_exists in H. destruct H as (x & Hx & Heq).
    apply filter_In in Hx. destruct Hx as [_ Hne].
    rewrite Heq in Hne. discriminate Hne.
  - rewrite existsb_app. simpl. rewrite String.eqb_refl.
    now rewrite orb_true_r.
Qed.

(** C9. Toggling the same service twice gives a selection with the same
    members as the original one: a service id is selected afterwards
    exactly when it was selected before. *)
Theorem toggleService_twice (service : Service.t) (selected : list Service.t)
    (id : string) :
  In id (map Service.id (toggleService service (toggleService service selected)))
  <-> In id (map Service.id selected).
Proof.
  rewrite toggleService_ids, toggleService_selected.
  pose proof (toggleService_ids service selected id) as Hone.
  destruct (existsb _ selected) eqn:Hsel; simpl; rewrite Hone.
  - split; [intros [[H _] | ->]; [exact H |] | ].
    + apply existsb_exists in Hsel. destruct Hsel as (s & Hs & Heq).
      apply String.eqb_eq in Heq. rewrite <- Heq. now apply in_map.
    + intros H. destruct (string_dec id (Service.id service)); [now right | now left].
  - split; [intros [[H | H] Hne]; [exact H | contradiction] |].
    intros H. split; [now left |].
    intros ->. apply in_map_iff in H. destruct H as (s & Heq & Hs).
    assert (Hex : existsb (fun s => Service.id s =? Service.id service) selected = true).
    { apply existsb_exists. exists s. split; [assumption | now apply String.eqb_eq]. }
    congruence.
Qed.

Example toggle_twice_reorders :
  map Service.id (toggleService haircut (toggleService haircut [haircut; colour]))
  = ["2"; "1"].
Proof. reflexivity. Qed.

(** ** From the catalogue queries to a booking *)

Lemma catalogue_queries_eq (w : World) (salonId : string) :
  getSalons w = (Returned (salons (imported w)), w)
  /\ getServices salonId w
     = (Returned (filter (fun s => Service.salonId s =? salonId)
                    (services (imported w))), w)
  /\ getStaff salonId w
     = (Returned (filter (fun s => Staff.salonId s =? salonId)
                    (staff (imported w))), w).
Proof. repeat split. Qed.

Lemma reachable_catalogue (w : World) :
  Reachable w ->
  salons (imported w) = salons (file w)
  /\ services (imported w) = services (file w)
  /\ staff (imported w) = staff (file w).
Proof.
  intros (d & rs & ->).
  destruct (serve_same_catalogue rs (boot d)) as [(Hi & Hsa & Hse & Hst & _) _].
  rewrite Hi, Hsa, Hse, Hst. repeat split.
Qed.

Lemma find_In_Some {A} (f : A -> bool) (l : list A) (x : A) :
  In x l -> f x = true -> exists y, find f l = Some y.
Proof.
  intros Hin Hfx. destruct (find f l) as [y |] eqn:Hfind; [now exists y |].
  rewrite find_None_iff in Hfind. specialize (Hfind x Hin). congruence.
Qed.

(** X1. Whatever the wizard offers can be booked.  In a store the server can
    be in: take a salon listed by [getSalons], a non-empty selection among
    the services [getServices] lists for it, and a staff member [getStaff]
    lists for it; then [createBooking] with their ids succeeds.  The
    booking's salon and staff carry the chosen ids, every selected service
    is among its services, and each of its services has a selected id. *)
Theorem wizard_choice_is_accepted (w : World) (salon : Salon.t)
    (selected : list Service.t) (staffMember : Staff.t)
    (offeredSalons : list Salon.t) (offeredServices : list Service.t)
    (offeredStaff : list Staff.t) (userId time : string) (now : N) :
  Reachable w ->
  getSalons w = (Returned offeredSalons, w) -> In salon offeredSalons ->
  getServices (Salon.id salon) w = (Returned offeredServices, w) ->
  incl selected offeredServices -> selected <> [] ->
  getStaff (Salon.id salon) w = (Returned offeredStaff, w) ->
  In staffMember offeredStaff ->
  exists booking w',
    createBooking
      {| BookingInput.userId := userId;
         BookingInput.salonId := Salon.id salon;
         BookingInput.serviceIds := map Service.id selected;
         BookingInput.staffId := Staff.id staffMember;
         BookingInput.time := time |} now w = (Returned booking, w')
    /\ Salon.id (Booking.salon booking) = Salon.id salon
    /\ Staff.id (Booking.staff booking) = Staff.id staffMember
    /\ incl selected (Booking.services booking)
    /\ forall s, In s (Booking.services booking) ->
                 In (Service.id s) (map Service.id selected).
Proof.
  intros Hreach Hsalons Hsalon Hservices Hsel Hne Hstaff HstaffIn.
  destruct (reachable_catalogue w Hreach) as (Esa & Ese & Est).
  destruct (catalogue_queries_eq w (Salon.id salon)) as (Q1 & Q2 & Q3).
  rewrite Q1 in Hsalons. rewrite Q2 in Hservices. rewrite Q3 in Hstaff.
  injection Hsalons as <-. injection Hservices as <-. injection Hstaff as <-.
  rewrite Esa in Hsalon. rewrite Ese in Hsel. rewrite Est in HstaffIn.
  apply filter_In in HstaffIn. destruct HstaffIn as [HstaffIn _].
  set (input := {| BookingInput.userId := userId;
                   BookingInput.salonId := Salon.id salon;
                   BookingInput.serviceIds := map Service.id selected;
                   BookingInput.staffId := Staff.id staffMember;
                   BookingInput.time := time |}).
  assert (Hall : incl selected (found_services (file w) input)).
  { intros s Hs. apply filter_In. split.
    - specialize (Hsel s Hs). now apply filter_In in Hsel.
    - apply includes_In. simpl. now apply in_map. }
  destruct (find_In_Some (fun s => Salon.id s =? Salon.id salon)
              (salons (file w)) salon Hsalon (String.eqb_refl _)) as [sa Hsa].
  destruct (find_In_Some (fun s => Staff.id s =? Staff.id staffMember)
              (staff (file w)) staffMember HstaffIn (String.eqb_refl _))
    as [st Hst].
  rewrite createBooking_eq.
  unfold found_salon, found_staff. simpl BookingInput.salonId.
  simpl BookingInput.staffId. rewrite Hsa, Hst.
  destruct (found_services (file w) input) as [| s0 ss] eqn:Hfound.
  - destruct selected as [| s sel]; [contradiction |].
    destruct (Hall s (or_introl eq_refl)).
  - eexists. eexists. split; [reflexivity |].
    unfold new_booking. cbn [Booking.salon Booking.staff Booking.services].
    apply find_some in Hsa. apply find_some in Hst.
    split; [now apply String.eqb_eq |].
    split; [now apply String.eqb_eq |].
    split; [exact Hall |].
    intros s Hs. rewrite <- Hfound in Hs. apply filter_In in Hs.
    destruct Hs as [_ Hs]. now apply includes_In in Hs.
Qed.

Lemma wizard_choice_is_accepted_witness :
  exists booking w',
    createBooking
      {| BookingInput.userId := "user-1";
         BookingInput.salonId := "1";
         BookingInput.serviceIds := ["2"];
         BookingInput.staffId := "1";
         BookingInput.time := "9:00 AM" |} 7 (boot demo) = (Returned booking, w')
    /\ Salon.id (Booking.salon booking) = "1".
Proof.
  destruct (wizard_choice_is_accepted (boot demo) salon1 [colour] staff1
              [salon1; salon2] [haircut; colour] [staff1] "user-1" "9:00 AM" 7)
    as (booking & w' & Hrun & Hid & _).
  - exists demo, []. reflexivity.
  - reflexivity.
  - now left.
  - reflexivity.
  - intros s [<- | []]. right. now left.
  - discriminate.
  - reflexivity.
  - now left.
  - exists booking, w'. split; assumption.
Defined.

(** ** Which services a booking holds *)

Lemma includes_ext (xs ys : list string) :
  (forall id, In id xs <-> In id ys) ->
  forall id, includes xs id = includes ys id.
Proof.
  intros H id. destruct (includes ys id) eqn:Hy.
  - apply includes_In. apply H. now apply includes_In.
  - destruct (includes xs id) eqn:Hx; [| reflexivity].
    apply includes_In, H, includes_In in Hx. congruence.
Qed.

(** X2. The services of a booking depend on [serviceIds] only as a set: two
    requests that differ in the order or the repetition of the ids get the
    same answer and leave the same store. *)
Theorem createBooking_serviceIds_as_set (input : BookingInput.t)
    (serviceIds' : list string) (now : N) (w : World) :
  (forall id, In id (BookingInput.serviceIds input) <-> In id serviceIds') ->
  createBooking
    {| BookingInput.userId := BookingInput.userId input;
       BookingInput.salonId := BookingInput.salonId input;
       BookingInput.serviceIds := serviceIds';
       BookingInput.staffId := BookingInput.staffId input;
       BookingInput.time := BookingInput.time input |} now w
  = createBooking input now w.
Proof.
  intros Hsame. rewrite !createBooking_eq.
  unfold found_salon, found_staff, found_services, new_booking. simpl.
  rewrite (filter_ext _ _ (fun s => includes_ext _ _ Hsame (Service.id s))).
  reflexivity.
Qed.

Lemma createBooking_serviceIds_as_set_witness :
  createBooking
    {| BookingInput.userId := "user-1"; BookingInput.salonId := "1";
       BookingInput.serviceIds := ["2"; "1"; "2"]; BookingInput.staffId := "1";
       BookingInput.time := "9:00 AM" |} 3 (boot demo)
  = createBooking demoBooking 3 (boot demo).
Proof.
  apply (createBooking_serviceIds_as_set demoBooking ["2"; "1"; "2"] 3 (boot demo)).
  intros id. simpl. tauto.
Defined.

Lemma find_unique {A} (key : A -> string) (l : list A) (x : A) :
  NoDup (map key l) -> In x l ->
  find (fun y => key y =? key x) l = Some x.
Proof.
  induction l as [| a l IH]; intros Hnd Hin; [destruct Hin |].
  simpl in Hnd. inversion Hnd as [| ? ? Hnotin Hnd']; subst.
  simpl. destruct Hin as [-> | Hin].
  - now rewrite String.eqb_refl.
  - destruct (key a =? key x) eqn:Heq.
    + apply String.eqb_eq in Heq. exfalso. apply Hnotin.
      rewrite Heq. now apply in_map.
    + now apply IH.
Qed.

(** Dropping services from a list keeps the remaining ids distinct. *)
Lemma filter_keeps_ids_distinct (keep : Service.t -> bool)
    (catalogue : list Service.t) :
  NoDup (map Service.id catalogue) ->
  NoDup (map Service.id (filter keep catalogue)).
Proof.
  intros Hnd. induction catalogue as [| a l IH]; simpl; [constructor |].
  simpl in Hnd. apply NoDup_cons_iff in Hnd. destruct Hnd as [Hfresh Hnd].
  destruct (keep a); [| now apply IH].
  simpl. apply NoDup_cons; [| now apply IH].
  intros Hin. apply Hfresh. apply in_map_iff in Hin.
  destruct Hin as (s & Hs & Hin). apply filter_In in Hin.
  rewrite <- Hs. apply in_map. tauto.
Qed.

(** X3. When the ids of the salons and of the staff in the file are pairwise
    distinct, a booking holds exactly the salon and the staff member that
    have the requested ids; and when the service ids are distinct, it
    holds no service twice. *)
Theorem createBooking_snapshot (input : BookingInput.t) (now : N)
    (w w' : World) (booking : Booking.t) :
  createBooking input now w = (Returned booking, w') ->
  (NoDup (map Salon.id (salons (file w))) ->
   forall s, In s (salons (file w)) ->
             Salon.id s = BookingInput.salonId input ->
             Booking.salon booking = s)
  /\ (NoDup (map Staff.id (staff (file w))) ->
      forall s, In s (staff (file w)) ->
                Staff.id s = BookingInput.staffId input ->
                Booking.staff booking = s)
  /\ (NoDup (map Service.id (services (file w))) ->
      NoDup (map Service.id (Booking.services booking))).
Proof.
  intros H. apply createBooking_returned in H.
  destruct H as (salon & st & Hsalon & Hstaff & _ & -> & _).
  unfold new_booking; simpl. split; [| split].
  - intros Hnd s Hin Hid. unfold found_salon in Hsalon.
    rewrite <- Hid, (find_unique Salon.id _ s Hnd Hin) in Hsalon.
    now injection Hsalon.
  - intros Hnd s Hin Hid. unfold found_staff in Hstaff.
    rewrite <- Hid, (find_unique Staff.id _ s Hnd Hin) in Hstaff.
    now injection Hstaff.
  - apply filter_keeps_ids_distinct.
Qed.

Lemma createBooking_snapshot_witness :
  Booking.salon (new_booking demoBooking 3 salon1 [haircut; colour] staff1)
  = salon1.
Proof.
  apply (createBooking_snapshot demoBooking 3 (boot demo)
           (handle (boot demo) (CreateBooking demoBooking 3))
           (new_booking demoBooking 3 salon1 [haircut; colour] staff1)
           eq_refl).
  - simpl. repeat constructor; simpl; intuition discriminate.
  - now left.
  - reflexivity.
Defined.

(** ** Reading bookings back *)

(** X4. What [getBookings] lists after a booking was made: for the user of the
    booking, the earlier list followed by the new booking; for every other
    user, the earlier list.  A file without a [bookings] key counts as an
    empty list and gets the key with the first booking. *)
Theorem getBookings_after_createBooking (input : BookingInput.t) (now : N)
    (w w' : World) (booking : Booking.t) (userId : string) :
  createBooking input now w = (Returned booking, w') ->
  getBookings userId w' =
  (Returned
     (answer [] (getBookings userId w)
      ++ if BookingInput.userId input =? userId then [booking] else []),
   w')
  /\ bookings (file w') <> None.
Proof.
  intros H. apply createBooking_returned in H.
  destruct H as (salon & st & _ & _ & _ & -> & ->).
  rewrite !getBookings_eq. unfold answer; simpl.
  rewrite filter_app. simpl. split; [reflexivity | discriminate].
Qed.

Lemma getBookings_after_createBooking_witness :
  getBookings "user-2" (handle (boot demo) (CreateBooking demoBooking 3))
  = (Returned [], handle (boot demo) (CreateBooking demoBooking 3)).
Proof.
  apply (getBookings_after_createBooking demoBooking 3 (boot demo)
           (handle (boot demo) (CreateBooking demoBooking 3))
           (new_booking demoBooking 3 salon1 [haircut; colour] staff1)
           "user-2" eq_refl).
Defined.

(** ** How the store evolves *)

(** One request either leaves the store as it is, or appends one booking,
    or appends one user that passed the checks of [register] and whose
    email was not in the store. *)
Lemma handle_cases (w : World) (r : Request) :
  handle w r = w
  \/ (exists input now salon services staff,
        r = CreateBooking input now
        /\ handle w r
           = {| imported := imported w;
                file := push_booking (file w)
                          (new_booking input now salon services staff) |})
  \/ (exists input now,
        r = Register input now
        /\ handle w r
           = {| imported := imported w;
                file := push_user (file w) (new_user input now) |}
        /\ existsb (fun u => StoredUser.email u =? RegisterInput.email input)
             (users (file w)) = false
        /\ valid_user (new_user input now) = true).
Proof.
  destruct r as [| salonId | salonId | staffId | userId | input now
                 | input now | input]; simpl; try (now left).
  - rewrite createBooking_eq.
    destruct (found_salon (file w) input) as [salon |]; [| now left].
    destruct (found_staff (file w) input) as [st |]; [| now left].
    destruct (found_services (file w) input) as [| s ss]; [now left |].
    right. left. now exists input, now, salon, (s :: ss), st.
  - rewrite register_eq.
    destruct (first_failure (register_checks (file w) input)) eqn:Hchecks;
      [now left |].
    right. right. exists input, now. split; [reflexivity |].
    split; [reflexivity |].
    unfold register_checks, first_failure in Hchecks.
    destruct (existsb _ (users (file w))); [discriminate |].
    destruct (blank (RegisterInput.name input)) eqn:B1; [discriminate |].
    destruct (blank (RegisterInput.phone input)) eqn:B2; [discriminate |].
    destruct (blank (RegisterInput.email input)) eqn:B3; [discriminate |].
    destruct (blank (RegisterInput.password input)) eqn:B4; [discriminate |].
    simpl in Hchecks.
    destruct (String.length (RegisterInput.phone input) <? 10)%nat eqn:L1;
      [discriminate |].
    destruct (str_includes (RegisterInput.email input) "@") eqn:I1;
      [| discriminate].
    simpl in Hchecks.
    destruct (String.length (RegisterInput.password input) <? 6)%nat eqn:L2;
      [discriminate |].
    split; [reflexivity |].
    unfold valid_user, new_user.
    cbn [StoredUser.name StoredUser.phone StoredUser.email StoredUser.password].
    apply Nat.ltb_ge in L1, L2. apply Nat.leb_le in L1, L2.
    now rewrite B1, B2, B3, B4, I1, L1, L2.
  - rewrite login_eq. now left.
Qed.

Lemma push_booking_changes (d : Document) (b : Booking.t) :
  push_booking d b <> d.
Proof.
  intros H. apply (f_equal bookings) in H. simpl in H.
  destruct (bookings d) as [l |]; [| discriminate].
  injection H as H. apply (f_equal (@List.length _)) in H.
  rewrite length_app in H. simpl in H. lia.
Qed.

Lemma push_user_changes (d : Document) (u : StoredUser.t) :
  push_user d u <> d.
Proof.
  intros H. apply (f_equal users) in H. simpl in H.
  apply (f_equal (@List.length _)) in H.
  rewrite length_app in H. simpl in H. lia.
Qed.

(** X5. The store changes exactly when a [createBooking] returns a booking or
    a [register] answers [success:true]: queries, logins, rejected
    bookings and refused registrations leave the file as it is, and a
    successful mutation always leaves it different. *)
Theorem store_changes_iff_mutation_succeeds (w : World) (r : Request) :
  handle w r = w <-> quiet w r = true.
Proof.
  destruct r as [| salonId | salonId | staffId | userId | input now
                 | input now | input]; simpl;
    try (split; [reflexivity | intros _; reflexivity]).
  - rewrite createBooking_eq. unfold thrown.
    destruct (found_salon (file w) input) as [salon |]; [| now split].
    destruct (found_staff (file w) input) as [st |]; [| now split].
    destruct (found_services (file w) input) as [| s ss]; [now split |].
    simpl. split; [| discriminate].
    intros H. apply (f_equal file) in H. simpl in H.
    now apply push_booking_changes in H.
  - rewrite register_eq. unfold answer.
    destruct (first_failure (register_checks (file w) input)); [now split |].
    simpl. split; [| discriminate].
    intros H. apply (f_equal file) in H. simpl in H.
    now apply push_user_changes in H.
  - rewrite login_eq. now split.
Qed.

Lemma handle_growth (w : World) (r : Request) :
  exists newUsers newBookings,
    users (file (handle w r)) = users (file w) ++ newUsers
    /\ prior_bookings (handle w r) = prior_bookings w ++ newBookings.
Proof.
  destruct (handle_cases w r)
    as [-> | [(input & now & sa & se & st & _ & ->)
             | (input & now & _ & -> & _)]].
  - exists [], []. now rewrite !app_nil_r.
  - exists [], [new_booking input now sa se st]. simpl. now rewrite app_nil_r.
  - exists [new_user input now], []. unfold prior_bookings. simpl.
    now rewrite app_nil_r.
Qed.

(** X6. The store is append-only.  Whatever requests the server answers, the
    users and the bookings it had are still there, unchanged and in the
    same places, followed by the new ones; so [getBookings] keeps listing
    every booking it listed before, in the same order. *)
Theorem store_is_append_only (w : World) (rs : list Request) :
  exists newUsers newBookings,
    users (file (serve w rs)) = users (file w) ++ newUsers
    /\ prior_bookings (serve w rs) = prior_bookings w ++ newBookings
    /\ forall userId,
         answer [] (getBookings userId (serve w rs))
         = answer [] (getBookings userId w)
           ++ filter (fun b => Booking.userId b =? userId) newBookings.
Proof.
  revert w. induction rs as [| r rs IH]; intros w.
  - exists [], []. simpl. rewrite !app_nil_r. repeat split.
    intros userId. now rewrite app_nil_r.
  - rewrite serve_cons.
    destruct (IH (handle w r)) as (us & bs & Hus & Hbs & _).
    destruct (handle_growth w r) as (us' & bs' & Hus' & Hbs').
    exists (us' ++ us), (bs' ++ bs).
    assert (Hb : prior_bookings (serve (handle w r) rs)
                 = prior_bookings w ++ bs' ++ bs).
    { rewrite Hbs, Hbs'. now rewrite app_assoc. }
    split; [rewrite Hus, Hus'; now rewrite app_assoc |].
    split; [exact Hb |].
    intros userId. rewrite !getBookings_eq. unfold answer; simpl.
    fold (prior_bookings (serve (handle w r) rs)). fold (prior_bookings w).
    rewrite Hb. now rewrite filter_app.
Qed.

(** ** The users collection *)

Lemma existsb_email_false (email : string) (l : list StoredUser.t) :
  existsb (fun u => StoredUser.email u =? email) l = false <->
  ~ In email (map StoredUser.email l).
Proof.
  rewrite <- not_true_iff_false, existsb_email_In, in_map_iff.
  split; intros H (u & A & B); apply H; exists u; tauto.
Qed.

Lemma NoDup_snoc {A} (l : list A) (x : A) :
  NoDup l -> ~ In x l -> NoDup (l ++ [x]).
Proof.
  intros Hnd Hx. apply NoDup_app; [exact Hnd | repeat constructor; intros [] |].
  intros a Ha [<- | []]. contradiction.
Qed.

(** X7. Emails stay unique.  If no two users of the file share an email, then
    after any requests still no two users do. *)
Theorem emails_stay_unique (w : World) (rs : list Request) :
  NoDup (map StoredUser.email (users (file w))) ->
  NoDup (map StoredUser.email (users (file (serve w rs)))).
Proof.
  revert w. induction rs as [| r rs IH]; intros w Hnd; [exact Hnd |].
  rewrite serve_cons. apply IH.
  destruct (handle_cases w r)
    as [-> | [(input & now & sa & se & st & _ & ->)
             | (input & now & _ & -> & Hfresh & _)]]; try exact Hnd.
  simpl. rewrite map_app. simpl.
  apply NoDup_snoc; [exact Hnd |].
  now apply existsb_email_false.
Qed.

(** X8. Every user the server adds passed the checks of [register]: name,
    phone, email and password not blank, phone of 10 characters or more,
    an "@" in the email, password of 6 characters or more. *)
Theorem added_users_are_valid (w : World) (rs : list Request) :
  exists newUsers,
    users (file (serve w rs)) = users (file w) ++ newUsers
    /\ forallb valid_user newUsers = true.
Proof.
  revert w. induction rs as [| r rs IH]; intros w.
  - exists []. simpl. now rewrite app_nil_r.
  - rewrite serve_cons. destruct (IH (handle w r)) as (us & Hus & Hvalid).
    destruct (handle_cases w r)
      as [E | [(input & now & sa & se & st & _ & E)
               | (input & now & _ & E & _ & Hv)]]; rewrite E in Hus |- *.
    + now exists us.
    + now exists us.
    + exists (new_user input now :: us). simpl in Hus |- *.
      rewrite Hus, <- app_assoc. split; [reflexivity |].
      now rewrite Hv, Hvalid.
Qed.

Lemma emails_stay_unique_witness :
  NoDup (map StoredUser.email
           (users (file (serve (boot demo)
                           [Register ann 10; Register ann_again 20])))).
Proof.
  apply (emails_stay_unique (boot demo) [Register ann 10; Register ann_again 20]).
  simpl. repeat constructor. intros [].
Defined.

(** ** Registering, then logging in *)

Lemma find_app_split {A} (f : A -> bool) (l1 l2 : list A) :
  find f (l1 ++ l2)
  = match find f l1 with Some x => Some x | None => find f l2 end.
Proof.
  induction l1 as [| a l1 IH]; simpl; [reflexivity |].
  destruct (f a); [reflexivity | exact IH].
Qed.

(** Once an email is registered, the users added later have other
    emails. *)
Lemma serve_later_emails (rs : list Request) :
  forall (w : World) (email : string),
    In email (map StoredUser.email (users (file w))) ->
    exists later,
      users (file (serve w rs)) = users (file w) ++ later
      /\ forall u, In u later -> StoredUser.email u <> email.
Proof.
  induction rs as [| r rs IH]; intros w email Hin.
  - exists []. simpl. rewrite app_nil_r. split; [reflexivity | intros u []].
  - rewrite serve_cons.
    destruct (handle_cases w r)
      as [E | [(input & now & sa & se & st & _ & E)
               | (input & now & _ & E & Hfresh & _)]]; rewrite E.
    + now apply IH.
    + destruct (IH {| imported := imported w;
                      file := push_booking (file w)
                                (new_booking input now sa se st) |} email Hin)
        as (later & Hl & Hne).
      now exists later.
    + destruct (IH {| imported := imported w;
                      file := push_user (file w) (new_user input now) |} email)
        as (later & Hl & Hne).
      { simpl. rewrite map_app. apply in_or_app. now left. }
      exists (new_user input now :: later). simpl in Hl |- *.
      rewrite Hl, <- app_assoc. split; [reflexivity |].
      intros u [<- | Hu]; [| now apply Hne].
      simpl. intros <-. apply existsb_email_false in Hfresh. contradiction.
Qed.

(** X9. After a successful [register], [login] with the same email and
    password succeeds and answers with the very user [register] returned;
    with the same email and any other password it fails.  Both hold after
    any further requests. *)
Theorem login_after_register (input : RegisterInput.t) (now : N)
    (w w1 : World) (response : AuthResponse.t) (between : list Request) :
  register input now w = (Returned response, w1) ->
  AuthResponse.success response = true ->
  login {| LoginInput.email := RegisterInput.email input;
           LoginInput.password := RegisterInput.password input |}
    (serve w1 between)
  = (Returned {| AuthResponse.success := true;
                 AuthResponse.message := msg_login;
                 AuthResponse.user := AuthResponse.user response |},
     serve w1 between)
  /\ forall password,
       password <> RegisterInput.password input ->
       login {| LoginInput.email := RegisterInput.email input;
                LoginInput.password := password |} (serve w1 between)
       = (Returned (failure msg_invalid_login), serve w1 between).
Proof.
  intros Hreg Hsuccess.
  pose proof (handle_cases w (Register input now)) as Hcases.
  simpl handle in Hcases. rewrite Hreg in Hcases. simpl snd in Hcases.
  rewrite register_eq in Hreg.
  destruct (first_failure (register_checks (file w) input)) eqn:Hchecks.
  { injection Hreg as <- _. discriminate Hsuccess. }
  injection Hreg as <- <-.
  destruct Hcases as [E | [(? & ? & ? & ? & ? & E & _) | (i & n & E & _ & Hfresh & _)]].
  { apply (f_equal file) in E. simpl in E. now apply push_user_changes in E. }
  { discriminate E. }
  injection E as <- <-.
  destruct (serve_later_emails between
              {| imported := imported w;
                 file := push_user (file w) (new_user input now) |}
              (RegisterInput.email input)) as (later & Hl & Hne).
  { simpl. rewrite map_app. apply in_or_app. right. now left. }
  assert (Hold : forall password,
             find (fun u => (StoredUser.email u =? RegisterInput.email input)
                            && (StoredUser.password u =? password))
               (users (file w)) = None).
  { intros password. apply find_None_iff. intros u Hu.
    apply existsb_email_false in Hfresh.
    destruct (StoredUser.email u =? RegisterInput.email input) eqn:He;
      [| reflexivity].
    apply String.eqb_eq in He. exfalso. apply Hfresh.
    rewrite <- He. now apply in_map. }
  split.
  - rewrite login_eq, Hl. simpl users.
    rewrite <- app_assoc, find_app_split, Hold. simpl.
    now rewrite !String.eqb_refl.
  - intros password Hpw. rewrite login_eq, Hl. simpl users.
    rewrite <- app_assoc, find_app_split, Hold. simpl.
    rewrite String.eqb_refl. simpl.
    destruct (RegisterInput.password input =? password) eqn:Hp.
    { apply String.eqb_eq in Hp. congruence. }
    replace (find _ later) with (@None StoredUser.t); [reflexivity |].
    symmetry. apply find_None_iff. intros u Hu.
    apply Hne in Hu. apply String.eqb_neq in Hu. now rewrite Hu.
Qed.

Lemma login_after_register_witness :
  login {| LoginInput.email := "ann@salon.com"; LoginInput.password := "secret" |}
    (serve (handle (boot demo) (Register ann 10)) [Register ann_again 20])
  = (Returned {| AuthResponse.success := true;
                 AuthResponse.message := msg_login;
                 AuthResponse.user := Some (userWithoutPassword (new_user ann 10)) |},
     serve (handle (boot demo) (Register ann 10)) [Register ann_again 20]).
Proof.
  apply (login_after_register ann 10 (boot demo)
           (handle (boot demo) (Register ann 10))
           (registered (new_user ann 10)) [Register ann_again 20]);
    reflexivity.
Defined.

(** ** Ids *)

Lemma NoDup_map_inj {A B} (f : A -> B) (l : list A) :
  (forall a b, f a = f b -> a = b) -> NoDup l -> NoDup (map f l).
Proof.
  intros Hinj Hnd. induction Hnd as [| a l Hnotin Hnd IH]; simpl; constructor.
  - intros Hin. apply in_map_iff in Hin. destruct Hin as (b & Hb & Hin).
    apply Hinj in Hb. now subst.
  - exact IH.
Qed.

Lemma booking_id_inj (a b : N) : booking_id a = booking_id b -> a = b.
Proof.
  unfold booking_id. intros H. apply booking_prefix_inj in H.
  now apply decimal_inj.
Qed.

Lemma user_id_inj (a b : N) : user_id a = user_id b -> a = b.
Proof.
  unfold user_id. simpl. intros H. injection H as H. now apply decimal_inj.
Qed.

(** X10. Booking ids are unique as long as the clock is.  If the booking ids of
    the file are those of the clock values [clocks], and these together
    with the clock values of the coming [createBooking] calls are pairwise
    distinct, then after these requests no two bookings of the file share
    an id. *)
Theorem booking_ids_stay_distinct (rs : list Request) :
  forall (w : World) (clocks : list N),
    booking_ids w = map booking_id clocks ->
    NoDup (clocks ++ booking_clocks rs) ->
    NoDup (booking_ids (serve w rs)).
Proof.
  induction rs as [| r rs IH]; intros w clocks Hids Hnd.
  - simpl in *. rewrite app_nil_r in Hnd. rewrite Hids.
    apply NoDup_map_inj; [exact booking_id_inj | exact Hnd].
  - rewrite serve_cons.
    assert (Hrest : NoDup (clocks ++ booking_clocks rs)).
    { destruct r; simpl in Hnd; try exact Hnd.
      now apply NoDup_remove_1 in Hnd. }
    destruct (handle_cases w r)
      as [E | [(input & now & sa & se & st & -> & E)
               | (input & now & -> & E & _)]]; rewrite E.
    + now apply (IH w clocks).
    + apply (IH _ (clocks ++ [now])).
      * unfold booking_ids, prior_bookings in *. simpl.
        now rewrite !map_app, Hids.
      * simpl in Hnd. now rewrite <- app_assoc.
    + now apply (IH _ clocks).
Qed.

Lemma booking_ids_stay_distinct_witness :
  NoDup (booking_ids
           (serve (boot demo)
              [CreateBooking demoBooking 1; Register ann 1;
               CreateBooking strangerBooking 2])).
Proof.
  apply (booking_ids_stay_distinct
           [CreateBooking demoBooking 1; Register ann 1;
            CreateBooking strangerBooking 2] (boot demo) []).
  - reflexivity.
  - simpl. repeat constructor; simpl; intuition discriminate.
Defined.

(** X11. The same for user ids and the clock values of the [register] calls. *)
Theorem user_ids_stay_distinct (rs : list Request) :
  forall (w : World) (clocks : list N),
    user_ids w = map user_id clocks ->
    NoDup (clocks ++ register_clocks rs) ->
    NoDup (user_ids (serve w rs)).
Proof.
  induction rs as [| r rs IH]; intros w clocks Hids Hnd.
  - simpl in *. rewrite app_nil_r in Hnd. rewrite Hids.
    apply NoDup_map_inj; [exact user_id_inj | exact Hnd].
  - rewrite serve_cons.
    assert (Hrest : NoDup (clocks ++ register_clocks rs)).
    { destruct r; simpl in Hnd; try exact Hnd.
      now apply NoDup_remove_1 in Hnd. }
    destruct (handle_cases w r)
      as [E | [(input & now & sa & se & st & -> & E)
               | (input & now & -> & E & _)]]; rewrite E.
    + now apply (IH w clocks).
    + now apply (IH _ clocks).
    + apply (IH _ (clocks ++ [now])).
      * unfold user_ids in *. simpl.
        now rewrite !map_app, Hids.
      * simpl in Hnd. now rewrite <- app_assoc.
Qed.

Lemma user_ids_stay_distinct_witness :
  NoDup (user_ids
           (serve (boot demo)
              [Register ann 2; CreateBooking demoBooking 2;
               Register ann_again 3])).
Proof.
  apply (user_ids_stay_distinct
           [Register ann 2; CreateBooking demoBooking 2; Register ann_again 3]
           (boot demo) [1%N]).
  - reflexivity.
  - simpl. repeat constructor; simpl; intuition discriminate.
Defined.

(** ** The mock resolver against the server *)

(** X12. On the same catalogue, the mock's [createBooking] builds the booking
    the server's resolver returns whenever that one succeeds: same id,
    salon, services, staff and time (it has no [userId]).  Where the
    server throws, the mock still returns a booking, one with no salon,
    or no staff, or no services. *)
Theorem mock_agrees_with_server (sampleData : Document)
    (input : BookingInput.t) (now : N) (w : World) :
  salons sampleData = salons (file w) ->
  services sampleData = services (file w) ->
  staff sampleData = staff (file w) ->
  (forall booking w',
      createBooking input now w = (Returned booking, w') ->
      mockCreateBooking sampleData (mock_params input) now
      = {| MockBooking.id := Booking.id booking;
           MockBooking.salon := Some (Booking.salon booking);
           MockBooking.services := Booking.services booking;
           MockBooking.staff := Some (Booking.staff booking);
           MockBooking.time := Booking.time booking |})
  /\ (thrown (createBooking input now w) = true ->
      MockBooking.salon (mockCreateBooking sampleData (mock_params input) now)
      = None
      \/ MockBooking.staff (mockCreateBooking sampleData (mock_params input) now)
         = None
      \/ MockBooking.services
           (mockCreateBooking sampleData (mock_params input) now) = []).
Proof.
  intros Hsa Hse Hst. unfold mockCreateBooking, mock_params; simpl.
  rewrite Hsa, Hse, Hst.
  fold (found_salon (file w) input). fold (found_staff (file w) input).
  fold (found_services (file w) input).
  split.
  - intros booking w' H. apply createBooking_returned in H.
    destruct H as (salon & st & -> & -> & _ & -> & _). reflexivity.
  - rewrite createBooking_thrown. unfold resolves.
    destruct (found_salon (file w) input); [| now left].
    destruct (found_staff (file w) input); [| right; now left].
    destruct (found_services (file w) input); [right; now right | discriminate].
Qed.

Lemma mock_agrees_with_server_witness :
  mockCreateBooking demo (mock_params demoBooking) 9
  = {| MockBooking.id := "booking-9";
       MockBooking.salon := Some salon1;
       MockBooking.services := [haircut; colour];
       MockBooking.staff := Some staff1;
       MockBooking.time := "9:00 AM" |}.
Proof.
  destruct (mock_agrees_with_server demo demoBooking 9 (boot demo)
              eq_refl eq_refl eq_refl) as [Hagree _].
  apply (Hagree (new_booking demoBooking 9 salon1 [haircut; colour] staff1)
           (handle (boot demo) (CreateBooking demoBooking 9))).
  reflexivity.
Defined.

(** ** Runs of toggles *)

Lemma isSelected_filter_other (id other : string) (l : list Service.t) :
  isSelected id (filter (fun s => negb (Service.id s =? other)) l)
  = isSelected id l && negb (id =? other).
Proof.
  unfold isSelected. induction l as [| a l IH]; simpl; [reflexivity |].
  destruct (Service.id a =? other) eqn:Hother; simpl.
  - rewrite IH. apply String.eqb_eq in Hother. subst other.
    destruct (Service.id a =? id) eqn:Hid; simpl; [| reflexivity].
    apply String.eqb_eq in Hid. subst id. rewrite String.eqb_refl. simpl.
    now rewrite andb_false_r.
  - rewrite IH. destruct (Service.id a =? id) eqn:Hid; simpl; [| reflexivity].
    apply String.eqb_eq in Hid. subst id. now rewrite Hother.
Qed.

(** One toggle flips the tick of the toggled id and leaves every other
    tick alone. *)
Lemma isSelected_toggleService (id : string) (service : Service.t)
    (selected : list Service.t) :
  isSelected id (toggleService service selected)
  = xorb (isSelected id selected) (Service.id service =? id).
Proof.
  unfold toggleService.
  pose proof (find_existsb (fun s => Service.id s =? Service.id service) selected)
    as Hfind.
  fold (isSelected (Service.id service) selected) in Hfind.
  destruct (find _ selected) as [s |].
  - rewrite isSelected_filter_other.
    destruct (Service.id service =? id) eqn:Hid.
    + apply String.eqb_eq in Hid. subst id.
      now rewrite String.eqb_refl, Hfind.
    + rewrite String.eqb_sym, Hid. simpl.
      now rewrite andb_true_r, xorb_false_r.
  - unfold isSelected in *. rewrite existsb_app. simpl. rewrite orb_false_r.
    destruct (Service.id service =? id) eqn:Hid.
    + apply String.eqb_eq in Hid. subst id. rewrite Hfind. reflexivity.
    + now rewrite orb_false_r, xorb_false_r.
Qed.

Lemma isSelected_toggleAll (toggles : list Service.t) :
  forall (selected : list Service.t) (id : string),
    isSelected id (toggleAll toggles selected)
    = xorb (isSelected id selected) (Nat.odd (toggle_count id toggles)).
Proof.
  induction toggles as [| s toggles IH]; intros selected id.
  - simpl. now rewrite xorb_false_r.
  - unfold toggleAll in *. simpl fold_left. rewrite IH.
    rewrite isSelected_toggleService. unfold toggle_count. simpl filter.
    destruct (Service.id s =? id); simpl List.length.
    + rewrite Nat.odd_succ, <- Nat.negb_odd.
      now destruct (isSelected id selected), (Nat.odd _).
    + now rewrite xorb_false_r.
Qed.

(** X13. After any run of toggles, a service is ticked exactly when its tick
    was flipped an odd number of times: it was selected before and
    toggled an even number of times, or was not and toggled an odd number
    of times.  In particular, from the empty selection the ticked services
    are those toggled an odd number of times. *)
Theorem toggle_parity (toggles selected : list Service.t) (id : string) :
  isSelected id (toggleAll toggles selected)
  = xorb (isSelected id selected) (Nat.odd (toggle_count id toggles))
  /\ isSelected id (toggleAll toggles [])
     = Nat.odd (toggle_count id toggles).
Proof.
  split; [apply isSelected_toggleAll |].
  rewrite isSelected_toggleAll. reflexivity.
Qed.

Lemma toggleService_NoDup (service : Service.t) (selected : list Service.t) :
  NoDup (map Service.id selected) ->
  NoDup (map Service.id (toggleService service selected)).
Proof.
  intros Hnd. unfold toggleService.
  destruct (find _ selected) as [s |] eqn:Hfind.
  - now apply filter_keeps_ids_distinct.
  - rewrite map_app. simpl. apply NoDup_snoc; [exact Hnd |].
    intros Hin. apply in_map_iff in Hin. destruct Hin as (s & Hs & Hin).
    rewrite find_None_iff in Hfind. specialize (Hfind s Hin).
    simpl in Hfind. rewrite Hs, String.eqb_refl in Hfind. discriminate.
Qed.

(** X14. No service is selected twice.  If the ids of the selection are
    pairwise distinct (as in the empty selection the screen starts with),
    they still are after any run of toggles; so the [serviceIds] the
    screen sends with a booking never repeat an id. *)
Theorem selection_ids_stay_distinct (toggles selected : list Service.t) :
  NoDup (map Service.id selected) ->
  NoDup (map Service.id (toggleAll toggles selected)).
Proof.
  revert selected. induction toggles as [| s toggles IH]; intros selected Hnd.
  - exact Hnd.
  - unfold toggleAll in *. simpl. apply IH. now apply toggleService_NoDup.
Qed.

Lemma selection_ids_stay_distinct_witness :
  NoDup (map Service.id (toggleAll [haircut; colour; haircut; shave] [])).
Proof.
  apply (selection_ids_stay_distinct [haircut; colour; haircut; shave] []).
  constructor.
Defined.

Lemma filter_out_unique (id : string) (l : list Service.t) (s : Service.t) :
  NoDup (map Service.id l) -> In s l -> Service.id s = id ->
  S (List.length (filter (fun x => negb (Service.id x =? id)) l))
  = List.length l.
Proof.
  induction l as [| a l IH]; intros Hnd Hin Hid; [destruct Hin |].
  simpl in Hnd. inversion Hnd as [| ? ? Hnotin Hnd']; subst.
  simpl. destruct Hin as [-> | Hin].
  - rewrite String.eqb_refl. simpl. f_equal.
    replace (filter _ l) with l; [reflexivity |].
    symmetry. apply forallb_filter_id. apply forallb_forall.
    intros x Hx. apply negb_true_iff, String.eqb_neq.
    intros Heq. apply Hnotin. rewrite <- Heq. now apply in_map.
  - destruct (Service.id a =? Service.id s) eqn:Heq.
    + apply String.eqb_eq in Heq. exfalso. apply Hnotin.
      rewrite Heq. now apply in_map.
    + simpl. f_equal. now apply IH.
Qed.

(** X15. Toggling a service twice, exactly.  If it was not selected, the
    selection comes back as it was, element for element.  If it was
    selected, the copy given to the handler ends up last and every other
    service keeps its place; with pairwise distinct ids the selection
    keeps its size. *)
Theorem toggleService_twice_exact (service : Service.t)
    (selected : list Service.t) :
  (isSelected (Service.id service) selected = false ->
   toggleService service (toggleService service selected) = selected)
  /\ (isSelected (Service.id service) selected = true ->
      toggleService service (toggleService service selected)
      = filter (fun s => negb (Service.id s =? Service.id service)) selected
        ++ [service]
      /\ (NoDup (map Service.id selected) ->
          List.length (toggleService service (toggleService service selected))
          = List.length selected)).
Proof.
  assert (Hgone : forall l,
             find (fun s => Service.id s =? Service.id service)
               (filter (fun s => negb (Service.id s =? Service.id service)) l)
             = None).
  { intros l. apply find_None_iff. intros x Hx. apply filter_In in Hx.
    now apply negb_true_iff. }
  unfold isSelected. rewrite find_existsb.
  destruct (find (fun s => Service.id s =? Service.id service) selected)
    as [s |] eqn:Hfind; (split; [intros Hsel | intros Hsel]);
    try discriminate Hsel.
  - assert (Heq : toggleService service (toggleService service selected)
                  = filter (fun s => negb (Service.id s =? Service.id service))
                      selected ++ [service]).
    { unfold toggleService. rewrite Hfind, Hgone. reflexivity. }
    split; [exact Heq |].
    intros Hnd. rewrite Heq, length_app. simpl. rewrite Nat.add_1_r.
    apply find_some in Hfind. destruct Hfind as [Hin Hid].
    apply String.eqb_eq in Hid.
    now apply (filter_out_unique _ _ s).
  - unfold toggleService. rewrite Hfind, find_app_split, Hfind. simpl.
    rewrite String.eqb_refl. rewrite filter_app. simpl.
    rewrite String.eqb_refl. simpl. rewrite app_nil_r.
    apply forallb_filter_id. apply forallb_forall. intros x Hx.
    rewrite find_None_iff in Hfind. now rewrite (Hfind x Hx).
Qed.

Lemma toggleService_twice_exact_witness :
  toggleService colour (toggleService colour [haircut]) = [haircut].
Proof.
  apply (toggleService_twice_exact colour [haircut]). reflexivity.
Defined.

(** ** The screen: back, tabs, continue, slots *)

(** X16. The back button.  Wherever it is shown, pressing it moves the wizard
    exactly one step back and starts no request; the selection made at the
    step that is left is cleared, the selections made at earlier steps and
    the chosen salon are kept; pressing it once per step passed leads to
    the salon step.  Where it is hidden, on the login, signup and salon
    steps, the handler does nothing. *)
Theorem handleBack_one_step (c : Screen.t) :
  (shouldShowBack c = true ->
   snd (handleBack c) = []
   /\ S (step_index (Screen.step (fst (handleBack c))))
      = step_index (Screen.step c)
   /\ Screen.selectedSalon (fst (handleBack c)) = Screen.selectedSalon c
   /\ (Screen.step c = Step.services ->
       Screen.selectedServices (fst (handleBack c)) = [])
   /\ (Screen.step c = Step.staff ->
       Screen.selectedStaff (fst (handleBack c)) = None)
   /\ (Screen.step c = Step.schedule ->
       Screen.selectedSchedule (fst (handleBack c)) = None)
   /\ (2 < step_index (Screen.step c) ->
       Screen.selectedServices (fst (handleBack c)) = Screen.selectedServices c)
   /\ (3 < step_index (Screen.step c) ->
       Screen.selectedStaff (fst (handleBack c)) = Screen.selectedStaff c)
   /\ (4 < step_index (Screen.step c) ->
       Screen.selectedSchedule (fst (handleBack c)) = Screen.selectedSchedule c)
   /\ Screen.step
        (Nat.iter (step_index (Screen.step c) - 1)
           (fun c => fst (handleBack c)) c) = Step.salon)
  /\ (shouldShowBack c = false -> Screen.step c <> Step.success ->
      handleBack c = (c, [])).
Proof.
  destruct c as [auth user em pw sn sp se spw scp tab step ld sal ser stf sch
                   ssal sser sstf ssch mine].
  unfold shouldShowBack, handleBack; simpl Screen.step.
  destruct step; simpl; split; intros H; try discriminate H;
    try (intros Hs; try contradiction; reflexivity);
    repeat split; intros; try discriminate; try lia; reflexivity.
Qed.

Lemma handleBack_one_step_witness :
  Screen.step
    (fst (handleBack (setStep Step.schedule initialScreen))) = Step.staff
  /\ snd (handleBack (setStep Step.schedule initialScreen)) = [].
Proof.
  destruct (handleBack_one_step (setStep Step.schedule initialScreen))
    as [Hshown _].
  destruct (Hshown eq_refl) as (Hfx & Hidx & _).
  split; [| exact Hfx].
  destruct (Screen.step (fst (handleBack (setStep Step.schedule initialScreen))));
    simpl in Hidx; try discriminate Hidx. reflexivity.
Defined.

(** X17. Leaving the home tab and coming back.  For a logged-in user on the
    home tab: switching to another tab changes nothing but the active tab;
    switching back restarts the wizard at the salon step with no salon,
    service, staff or slot selected if it was past the salon step, and
    otherwise gives back the screen as it was.  Pressing the tab that is
    already active does nothing. *)
Theorem leaving_home_tab_restarts_wizard (c : Screen.t) (tab : Tab.t) :
  Screen.activeTab c = Tab.home -> tab <> Tab.home ->
  Screen.isAuthenticated c = true ->
  onTabChange tab c = setActiveTab tab c
  /\ onTabChange Tab.home c = c
  /\ (1 < step_index (Screen.step c) ->
      onTabChange Tab.home (onTabChange tab c)
      = setSelectedSchedule None
          (setSelectedStaff None
             (setSelectedServices []
                (setSelectedSalon None (setStep Step.salon c)))))
  /\ (step_index (Screen.step c) <= 1 ->
      onTabChange Tab.home (onTabChange tab c) = c).
Proof.
  destruct c as [auth user em pw sn sp se spw scp tab0 step ld sal ser stf sch
                   ssal sser sstf ssch mine].
  simpl. intros -> Htab ->.
  unfold onTabChange, homeTabEffect; simpl.
  destruct tab; try contradiction; simpl;
    (split; [reflexivity |]); (split; [reflexivity |]);
    split; intros Hidx; destruct step; simpl in Hidx; try lia; reflexivity.
Qed.

Lemma leaving_home_tab_restarts_wizard_witness :
  Screen.step
    (onTabChange Tab.home
       (onTabChange Tab.bookings
          (setIsAuthenticated true (setStep Step.staff initialScreen))))
  = Step.salon.
Proof.
  destruct (leaving_home_tab_restarts_wizard
              (setIsAuthenticated true (setStep Step.staff initialScreen))
              Tab.bookings eq_refl) as (_ & _ & Hmid & _).
  - discriminate.
  - reflexivity.
  - rewrite Hmid; [reflexivity | simpl; lia].
Defined.

Lemma selectedServices_toggles (toggles : list Service.t) :
  forall c,
    Screen.selectedServices
      (fold_left (fun c s => onToggleService s c) toggles c)
    = toggleAll toggles (Screen.selectedServices c).
Proof.
  induction toggles as [| s toggles IH]; intros c; [reflexivity |].
  simpl fold_left. rewrite IH. destruct c; reflexivity.
Qed.

Lemma nothing_selected_iff (selected : list Service.t) :
  selected = [] <-> forall id, isSelected id selected = false.
Proof.
  split.
  - intros -> id. reflexivity.
  - destruct selected as [| s l]; [reflexivity |].
    intros H. specialize (H (Service.id s)). simpl in H.
    now rewrite String.eqb_refl in H.
Qed.

(** X18. Continue, after a run of toggles on an empty selection: the handler
    answers with the "Please select at least one service" alert, and
    changes nothing, exactly when every service was toggled an even number
    of times. *)
Theorem continue_refused_iff_even_toggles (c : Screen.t)
    (toggles : list Service.t) :
  Screen.selectedServices c = [] ->
  (proceedToStaff (fold_left (fun c s => onToggleService s c) toggles c)
   = (fold_left (fun c s => onToggleService s c) toggles c,
      [Alert "Error" "Please select at least one service"]))
  <-> forall id, Nat.odd (toggle_count id toggles) = false.
Proof.
  intros Hempty.
  set (c' := fold_left (fun c s => onToggleService s c) toggles c).
  assert (Hsel : Screen.selectedServices c' = toggleAll toggles []).
  { unfold c'. now rewrite selectedServices_toggles, Hempty. }
  assert (Hiff : Screen.selectedServices c' = [] <->
                 forall id, Nat.odd (toggle_count id toggles) = false).
  { rewrite nothing_selected_iff, Hsel. split; intros H id.
    - specialize (H id). now rewrite isSelected_toggleAll in H.
    - rewrite isSelected_toggleAll. simpl. apply H. }
  rewrite <- Hiff. unfold proceedToStaff.
  destruct (Screen.selectedServices c') as [| s l]; simpl.
  - split; reflexivity.
  - split; [| discriminate].
    destruct c'; simpl. destruct selectedSalon; discriminate.
Qed.

Lemma continue_refused_iff_even_toggles_witness :
  proceedToStaff
    (fold_left (fun c s => onToggleService s c) [haircut; colour; haircut; colour]
       (setStep Step.services initialScreen))
  = (fold_left (fun c s => onToggleService s c) [haircut; colour; haircut; colour]
       (setStep Step.services initialScreen),
     [Alert "Error" "Please select at least one service"]).
Proof.
  apply (continue_refused_iff_even_toggles
           (setStep Step.services initialScreen)
           [haircut; colour; haircut; colour] eq_refl).
  intros id. unfold toggle_count, haircut, colour. cbn [filter Service.id].
  destruct ("1" =? id)%string; destruct ("2" =? id)%string; reflexivity.
Defined.

(** X19. Picking a slot.  A slot that is not available changes nothing.  An
    available one is stored and leads to the confirmation step; going back
    from there returns to the schedule step with the slot, the staff, the
    services and the salon still selected. *)
Theorem slot_choice_survives_back (schedule : Schedule.t) (c : Screen.t) :
  (Schedule.isAvailable schedule = false ->
   handleScheduleSelect schedule c = c)
  /\ (Schedule.isAvailable schedule = true ->
      Screen.step (handleScheduleSelect schedule c) = Step.confirmation
      /\ Screen.selectedSchedule (handleScheduleSelect schedule c)
         = Some schedule
      /\ handleBack (handleScheduleSelect schedule c)
         = (setStep Step.schedule (setSelectedSchedule (Some schedule) c), [])).
Proof.
  unfold handleScheduleSelect. split; intros ->; simpl; [reflexivity |].
  repeat split.
Qed.

Lemma slot_choice_survives_back_witness :
  handleScheduleSelect (slot "2" "10:00 AM" false)
    (setStep Step.schedule initialScreen)
  = setStep Step.schedule initialScreen.
Proof.
  apply (slot_choice_survives_back (slot "2" "10:00 AM" false)
           (setStep Step.schedule initialScreen)).
  reflexivity.
Defined.
